(** * Rate-limit gate, cache and mentions endpoint of the crypto mention server

    A shallow embedding of [server.js] (the production server), of the
    hourly bucketing of the 7-day variant of the mentions endpoint and of
    the 15-minute bucketing of its 1-hour variant.

    Model conventions:
    - an instant is a [Z] number of milliseconds since the epoch (a JS [Date]
      value); the process runs in UTC, so [setHours]/[setMinutes] move the
      UTC clock, and ISO-8601 keys are identified with the instant they print;
    - one request runs at one instant [now]: [Date.now()], [new Date()] and
      SQL [NOW()] all read it;
    - the PostgreSQL pool is a world holding the two tables, together with a
      fault oracle: every query consumes one flag, and a [true] flag makes
      that query throw (connection loss, timeout, ...);
    - calls to the Twitter client are recorded in a counter of the world. *)

From Stdlib Require Import ZArith List String Bool Lia Sorted Permutation.
Import ListNotations.
Open Scope string_scope.
Open Scope Z_scope.

(** ** Tables *)

(** A row of [mentions (symbol, count, timestamp)], unique on
    [(symbol, timestamp)]. *)
Record mention_row := MentionRow {
  m_symbol : string;
  m_count : Z;
  m_timestamp : Z
}.

(** The row of [rate_limits] under key ['twitter_rate_limit']:
    [value] is the reset instant. *)
Record rate_row := RateRow {
  rl_value : Z;
  rl_updated_at : Z;
  rl_attempts : Z
}.

Record db := Db {
  mentions : list mention_row;
  rate_limit : option rate_row
}.

Record world := World {
  w_db : db;
  w_faults : list bool;
  w_twitter_calls : nat
}.

(** ** The request monad: errors and the world *)

Inductive exn :=
| DbError
| ApiError (code : Z).

Definition M (A : Type) : Type := world -> (exn + A) * world.

Definition ret {A} (a : A) : M A := fun w => (inr a, w).
Definition throw {A} (e : exn) : M A := fun w => (inl e, w).

Definition bind {A B} (m : M A) (f : A -> M B) : M B :=
  fun w => match m w with
           | (inl e, w') => (inl e, w')
           | (inr a, w') => f a w'
           end.

Notation "x <- m ;; k" := (bind m (fun x => k))
  (at level 61, m at next level, right associativity).
Notation "m ;;; k" := (bind m (fun _ => k))
  (at level 61, right associativity).

(** [try { m } catch (e) { h(e) }] *)
Definition try_catch {A} (m : M A) (h : exn -> M A) : M A :=
  fun w => match m w with
           | (inl e, w') => h e w'
           | (inr a, w') => (inr a, w')
           end.

Definition set_db (d : db) (w : world) : world :=
  World d (w_faults w) (w_twitter_calls w).

(** One [pool.query]: take the next fault flag; on a fault the query throws
    and the tables are untouched, otherwise [run] reads and updates them. *)
Definition pool_query {A} (run : db -> A * db) : M A :=
  fun w =>
    let '(fault, rest) := match w_faults w with
                          | [] => (false, [])
                          | f :: fs => (f, fs)
                          end in
    let w1 := World (w_db w) rest (w_twitter_calls w) in
    if fault then (inl DbError, w1)
    else let '(a, d') := run (w_db w1) in (inr a, set_db d' w1).

(** ** Rate-limit helpers (server.js) *)

(** [calculateResetTime(attempts)]: attempts is a non-negative integer (the
    column is written only by [setRateLimit], and defaults to 0). *)
Definition calculateResetTime (now attempts : Z) : Z :=
  let baseDelay := 15 * 60 in
  let maxDelay := 24 * 60 * 60 in
  let delay := Z.min (baseDelay * 2 ^ attempts) maxDelay in
  now + delay * 1000.

(** [Math.ceil(x / 1000)] on an integer [x]. *)
Definition ceil_div_1000 (x : Z) : Z := - ((- x) / 1000).

(** The object returned by [checkRateLimit]. *)
Record rate_status := RateStatus {
  canMakeRequest : bool;
  resetTime : Z;
  waitSeconds : Z;
  attempts : Z
}.

(** [SELECT value, updated_at, attempts FROM rate_limits WHERE key = $1] *)
Definition select_rate_limit : M (option rate_row) :=
  pool_query (fun d => (rate_limit d, d)).

Definition checkRateLimit (now : Z) : M rate_status :=
  try_catch
    (rows <- select_rate_limit ;;
     match rows with
     | Some limit =>
         if now <? rl_value limit then
           ret (RateStatus false (rl_value limit)
                  (Z.max 0 (ceil_div_1000 (rl_value limit - now)))
                  (rl_attempts limit))
         else ret (RateStatus true now 0 0)
     | None => ret (RateStatus true now 0 0)
     end)
    (fun _ => ret (RateStatus true now 0 0)).

(** [INSERT ... ON CONFLICT (key) DO UPDATE SET value, updated_at, attempts] *)
Definition upsert_rate_limit (r : rate_row) : M unit :=
  pool_query (fun d => (tt, Db (mentions d) (Some r))).

(** [setRateLimit(currentAttempts)]; [(currentAttempts || 0)] is the
    identity on integers. *)
Definition setRateLimit (now currentAttempts : Z) : M Z :=
  try_catch
    (let nextAttempts := currentAttempts + 1 in
     let resetTime := calculateResetTime now nextAttempts in
     upsert_rate_limit (RateRow resetTime now nextAttempts) ;;;
     ret resetTime)
    (fun _ => ret (now + 15 * 60 * 1000)).

(** [DELETE FROM rate_limits WHERE key = 'twitter_rate_limit'] *)
Definition delete_rate_limit : M unit :=
  pool_query (fun d => (tt, Db (mentions d) None)).

(** [POST /api/reset-rate-limit] *)
Inductive reset_response :=
| ResetSuccess
| ResetFailed.

Definition reset_rate_limit_handler : M reset_response :=
  try_catch (delete_rate_limit ;;; ret ResetSuccess)
            (fun _ => ret ResetFailed).

(** ** Mention cache helpers (server.js) *)

(** [ORDER BY timestamp ASC]: insertion by timestamp. *)
Fixpoint insert_by_timestamp (r : Z * Z) (l : list (Z * Z)) : list (Z * Z) :=
  match l with
  | [] => [r]
  | x :: xs => if fst x <=? fst r then x :: insert_by_timestamp r xs
               else r :: l
  end.

Definition sort_by_timestamp (l : list (Z * Z)) : list (Z * Z) :=
  fold_right insert_by_timestamp [] l.

(** [getCachedData(symbol, hours)]: rows [(timestamp, count)] of [symbol]
    with [timestamp >= NOW() - INTERVAL 'hours hours']; [[]] on any error. *)
Definition getCachedData (symbol : string) (hours now : Z) : M (list (Z * Z)) :=
  try_catch
    (pool_query (fun d =>
       (sort_by_timestamp
          (map (fun r => (m_timestamp r, m_count r))
             (filter (fun r => String.eqb (m_symbol r) symbol
                               && (now - hours * 3600 * 1000 <=? m_timestamp r))
                (mentions d))), d)))
    (fun _ => ret []).

(** [INSERT INTO mentions ... ON CONFLICT (symbol, timestamp) DO UPDATE SET
    count = $2]: last write wins. *)
Definition same_key (symbol : string) (timestamp : Z) (r : mention_row) : bool :=
  String.eqb (m_symbol r) symbol && (m_timestamp r =? timestamp).

Definition upsert_mention (symbol : string) (count timestamp : Z)
    (rows : list mention_row) : list mention_row :=
  if existsb (same_key symbol timestamp) rows
  then map (fun r => if same_key symbol timestamp r
                     then MentionRow symbol count timestamp else r) rows
  else rows ++ [MentionRow symbol count timestamp].

(** [cacheData(symbol, count, timestamp)]: no [try], a failure throws. *)
Definition cacheData (symbol : string) (count timestamp : Z) : M unit :=
  pool_query (fun d =>
    (tt, Db (upsert_mention symbol count timestamp (mentions d)) (rate_limit d))).

(** ** The Twitter client *)

(** One element of [tweets.data] of [tweetCountsRecent]. *)
Record count_point := CountPoint {
  cp_end : Z;
  tweet_count : Z
}.

(** [twitterClient.v2.tweetCountsRecent(...)]: the upstream's answer is an
    input of the request ([inl] a thrown error, [inr] the [data] array, [[]]
    also standing for an absent [data]); the call is counted. *)
Definition tweetCountsRecent (upstream : exn + list count_point)
    : M (list count_point) :=
  fun w =>
    (upstream, World (w_db w) (w_faults w) (S (w_twitter_calls w))).

(** ** [GET /api/mentions] (server.js) *)

Inductive response :=
| Json200 (timestamps : list Z) (counts : list Z) (totalMentions : Z)
          (source : string) (period : string) (message : option string)
| Status400
| Status429 (resetTime : Z) (waitSeconds : Z)
| Status500.

Definition formatSymbol (symbol : string) : string :=
  if String.prefix "$" symbol then symbol else String.append "$" symbol.

(** [xs.reduce((sum, d) => sum + d.count, 0)] *)
Definition sum_counts (xs : list (Z * Z)) : Z :=
  fold_left (fun sum d => sum + snd d) xs 0.

(** [for (const dataPoint of processedData) await cacheData(...)] *)
Fixpoint cache_all (symbol : string) (points : list (Z * Z)) : M unit :=
  match points with
  | [] => ret tt
  | (timestamp, count) :: rest =>
      cacheData symbol count timestamp ;;; cache_all symbol rest
  end.

(** [symbol] is [req.query.symbol] ([None] when absent). *)
Definition mentions_handler (symbol : option string) (now : Z)
    (upstream : exn + list count_point) : M response :=
  match symbol with
  | None | Some EmptyString => ret Status400
  | Some s =>
    try_catch
      (let formattedSymbol := formatSymbol s in
       cachedData <- getCachedData formattedSymbol 1 now ;;
       match cachedData with
       | _ :: _ =>
           ret (Json200 (map fst cachedData) (map snd cachedData)
                  (sum_counts cachedData) "cache" "1 hour" None)
       | [] =>
           rateLimitStatus <- checkRateLimit now ;;
           if negb (canMakeRequest rateLimitStatus) then
             ret (Status429 (resetTime rateLimitStatus)
                            (waitSeconds rateLimitStatus))
           else
             try_catch
               (tweets <- tweetCountsRecent upstream ;;
                match tweets with
                | [] => ret (Json200 [] [] 0 "twitter" "7 days"
                               (Some "No mentions found in the last 7 days"))
                | _ :: _ =>
                    let processedData :=
                      map (fun d => (cp_end d, tweet_count d)) tweets in
                    cache_all formattedSymbol processedData ;;;
                    ret (Json200 (map fst processedData) (map snd processedData)
                           (sum_counts processedData) "twitter" "7 days" None)
                end)
               (fun twitterError =>
                  match twitterError with
                  | ApiError 429 =>
                      (* the wait is taken against the request's instant;
                         server.js reads the clock again after the upsert,
                         so its wait can be shorter by the elapsed time *)
                      rl <- checkRateLimit now ;;
                      reset <- setRateLimit now (attempts rl) ;;
                      ret (Status429 reset (Z.max 0 (ceil_div_1000 (reset - now))))
                  | e => throw e
                  end)
       end)
      (fun _ => ret Status500)
  end.

(** ** Hourly bucketing of the 7-day mentions endpoint (part_000) *)

Module Hourly.

Definition HOUR : Z := 60 * 60 * 1000.

(** [for (let time = new Date(startTime); time <= endTime;
         time.setHours(time.getHours() + 1)) hourlyTimestamps.push(time)]:
    [fuel] only bounds the recursion, the loop leaves by its test. *)
Fixpoint hour_loop (fuel : nat) (time endTime : Z) : list Z :=
  match fuel with
  | O => []
  | S fuel' =>
      if time <=? endTime then time :: hour_loop fuel' (time + HOUR) endTime
      else []
  end.

Definition hourlyTimestamps (startTime endTime : Z) : list Z :=
  hour_loop (S (S (Z.to_nat ((endTime - startTime) / HOUR)))) startTime endTime.

(** A JS [Map] from (ISO keys of) instants to counts, in insertion order. *)
Fixpoint map_get (m : list (Z * Z)) (k : Z) : option Z :=
  match m with
  | [] => None
  | (k', v) :: rest => if k' =? k then Some v else map_get rest k
  end.

Fixpoint map_set (m : list (Z * Z)) (k v : Z) : list (Z * Z) :=
  match m with
  | [] => [(k, v)]
  | (k', v') :: rest =>
      if k' =? k then (k, v) :: rest else (k', v') :: map_set rest k v
  end.

(** [map.get(k) || 0] *)
Definition get_or_0 (m : list (Z * Z)) (k : Z) : Z :=
  match map_get m k with Some v => v | None => 0 end.

(** [hourlyData.set(timestamp, 0)] for every grid instant. *)
Definition seed (grid : list Z) : list (Z * Z) :=
  fold_left (fun m ts => map_set m ts 0) grid [].

(** [tweetTime.setMinutes(0, 0, 0)] *)
Definition floor_hour (t : Z) : Z := t - t mod HOUR.

(** [tweets.data.forEach(tweet => hourlyData.set(hourKey, (get || 0) + 1))] *)
Definition count_tweets (m : list (Z * Z)) (tweets : list Z) : list (Z * Z) :=
  fold_left (fun m t => let hourKey := floor_hour t in
                        map_set m hourKey (get_or_0 m hourKey + 1)) tweets m.

(** [sortedData = hourlyTimestamps.map(ts => ({ts, count: get(ts) || 0}))],
    from the tweets' [created_at] instants. *)
Definition aggregate_hourly (startTime endTime : Z) (tweets : list Z)
    : list (Z * Z) :=
  let grid := hourlyTimestamps startTime endTime in
  let hourlyData := count_tweets (seed grid) tweets in
  map (fun ts => (ts, get_or_0 hourlyData ts)) grid.

(** The handler's window: [endTime = new Date()],
    [startTime = endTime - 7 * 24 * 60 * 60 * 1000]. *)
Definition window_start (now : Z) : Z := now - 7 * 24 * 60 * 60 * 1000.

Definition in_window (startTime endTime t : Z) : bool :=
  (startTime <=? t) && (t <=? endTime).

End Hourly.

(** ** Other helpers and endpoints of server.js *)

(** The text of [getHumanReadableDuration(seconds)] for an integer
    [seconds] (all callers pass a [waitSeconds]): [DSeconds n] prints
    [`${n} seconds`], [DMinutes n] prints [`${n} minutes`], and [DHours s]
    prints [`${Math.round(s / 3600 * 10) / 10} hours`]; that last rounding
    is done in floating point and is kept unevaluated. [Math.ceil] of an
    integer is the integer, and [Math.ceil(s / 60)] is exact on integers. *)
Inductive duration_text :=
| DSeconds (n : Z)
| DMinutes (n : Z)
| DHours (seconds : Z).

Definition getHumanReadableDuration (seconds : Z) : duration_text :=
  if seconds <? 60 then DSeconds seconds
  else if seconds <? 3600 then DMinutes (- ((- seconds) / 60))
  else DHours seconds.

(** [maskCredential(credential)]: [None] is an unset variable. *)
Definition maskCredential (credential : option string) : string :=
  match credential with
  | None | Some EmptyString => "not set"
  | Some c =>
      if Nat.leb (String.length c) 8 then "***"
      else String.append (substring 0 4 c)
             (String.append "..." (substring (String.length c - 4) 4 c))
  end.

(** [GET /api/status]: [hasCredentials] is
    [Object.values(credentials).every(Boolean)]. *)
Inductive status_response :=
| StatusAvailable (rateLimitedUntil : option Z)
| StatusMissingCredentials
| StatusDatabaseFailed
| StatusCheckError.

(** [SELECT NOW()] and the [CREATE TABLE IF NOT EXISTS ...] script: a query
    that changes no row (both tables exist in the model). *)
Definition pool_query_no_rows : M unit := pool_query (fun d => (tt, d)).

Definition status_handler (hasCredentials : bool) (now : Z)
    : M status_response :=
  try_catch
    (if negb hasCredentials then ret StatusMissingCredentials
     else
       try_catch
         (pool_query_no_rows ;;;
          rateLimit <- checkRateLimit now ;;
          ret (StatusAvailable (if canMakeRequest rateLimit then None
                                else Some (resetTime rateLimit))))
         (fun _ => ret StatusDatabaseFailed))
    (fun _ => ret StatusCheckError).

(** [initializeDatabase()]: create the tables, then clear the rate limit. *)
Definition initializeDatabase : M unit :=
  try_catch (pool_query_no_rows ;;; delete_rate_limit) (fun _ => ret tt).

(** ** 15-minute bucketing of the 1-hour mentions endpoint (part_003) *)

Module Quarter.

Definition QUARTER : Z := 15 * 60 * 1000.

(** [for (let time = new Date(startTime); time <= now;
         time.setMinutes(time.getMinutes() + 15)) hourlyData.set(time, 0)] *)
Fixpoint quarter_loop (fuel : nat) (time endTime : Z) : list Z :=
  match fuel with
  | O => []
  | S fuel' =>
      if time <=? endTime then time :: quarter_loop fuel' (time + QUARTER) endTime
      else []
  end.

Definition quarterTimestamps (startTime endTime : Z) : list Z :=
  quarter_loop (S (S (Z.to_nat ((endTime - startTime) / QUARTER))))
    startTime endTime.

(** [tweetTime.setMinutes(Math.floor(tweetTime.getMinutes() / 15) * 15, 0, 0)] *)
Definition floor_quarter (t : Z) : Z := t - t mod QUARTER.

Definition count_tweets (m : list (Z * Z)) (tweets : list Z) : list (Z * Z) :=
  fold_left (fun m t => let timeKey := floor_quarter t in
                        Hourly.map_set m timeKey (Hourly.get_or_0 m timeKey + 1))
    tweets m.

(** [Array.from(hourlyData.entries()).sort(by key)], with
    [startTime = now - 60 * 60 * 1000]. *)
Definition aggregate_quarter (now : Z) (tweets : list Z) : list (Z * Z) :=
  let startTime := now - 60 * 60 * 1000 in
  let hourlyData :=
    count_tweets (Hourly.seed (quarterTimestamps startTime now)) tweets in
  sort_by_timestamp hourlyData.

End Quarter.

(** * Properties *)

(** ** Rate-limit gate *)

Section RateLimitGate.

(** The first query of a run fails iff the head fault flag is set. *)
Definition first_query_fails (w : world) : bool := hd false (w_faults w).

Lemma pool_query_twitter_calls {A} (run : db -> A * db) (w : world) :
  w_twitter_calls (snd (pool_query run w)) = w_twitter_calls w.
Proof.
  unfold pool_query. destruct (w_faults w) as [|[|] fs]; simpl; auto;
    destruct (run (w_db w)); reflexivity.
Qed.

Lemma ceil_div_1000_bounds (x : Z) :
  (ceil_div_1000 x - 1) * 1000 < x <= ceil_div_1000 x * 1000.
Proof.
  unfold ceil_div_1000.
  pose proof (Z.div_mod (- x) 1000 ltac:(lia)).
  pose proof (Z.mod_pos_bound (- x) 1000 ltac:(lia)).
  lia.
Qed.

Lemma ceil_div_1000_pos (x : Z) : 0 < x -> 0 < ceil_div_1000 x.
Proof. intros Hx. pose proof (ceil_div_1000_bounds x). lia. Qed.

Lemma min_backoff_capped (n : Z) :
  7 <= n -> Z.min (15 * 60 * 2 ^ n) (24 * 60 * 60) = 24 * 60 * 60.
Proof.
  intros Hn.
  assert (2 ^ 7 <= 2 ^ n) by (apply Z.pow_le_mono_r; lia).
  change (2 ^ 7) with 128 in H.
  rewrite Z.min_r; [reflexivity | lia].
Qed.

(** C1 (as stated), refuted: a call with [currentAttempts = 0] whose
    upsert fails returns now + 15 minutes, not now + 30 minutes. *)
Lemma setRateLimit_write_failure_not_30min :
  fst (setRateLimit 0 0 (World (Db [] None) [true] 0)) = inr (15 * 60 * 1000)
  /\ fst (setRateLimit 0 0 (World (Db [] None) [true] 0)) <> inr (0 + 30 * 60 * 1000).
Proof. vm_compute. split; [reflexivity | congruence]. Qed.

(** C1 (amended): for a non-negative [currentAttempts] whose upsert
    succeeds, [setRateLimit] persists and returns
    resetAt = now + min(15 min * 2^(currentAttempts+1), 24 h) with
    attempts = currentAttempts + 1: +30m, 1h, 2h, 4h, 8h, 16h for
    currentAttempts = 0..5 and exactly +24h from 6 on; when the upsert
    fails, it returns now + 15 minutes and the stored row is unchanged. *)
Theorem setRateLimit_backoff (now currentAttempts : Z) (w : world)
    (Hnonneg : 0 <= currentAttempts) :
  let r := now + Z.min (15 * 60 * 2 ^ (currentAttempts + 1)) (24 * 60 * 60) * 1000 in
  (first_query_fails w = false ->
   fst (setRateLimit now currentAttempts w) = inr r /\
   rate_limit (w_db (snd (setRateLimit now currentAttempts w)))
     = Some (RateRow r now (currentAttempts + 1)) /\
   (currentAttempts = 0 -> r = now + 30 * 60 * 1000) /\
   (currentAttempts = 1 -> r = now + 60 * 60 * 1000) /\
   (currentAttempts = 2 -> r = now + 2 * 60 * 60 * 1000) /\
   (currentAttempts = 3 -> r = now + 4 * 60 * 60 * 1000) /\
   (currentAttempts = 4 -> r = now + 8 * 60 * 60 * 1000) /\
   (currentAttempts = 5 -> r = now + 16 * 60 * 60 * 1000) /\
   (6 <= currentAttempts -> r = now + 24 * 60 * 60 * 1000)) /\
  (first_query_fails w = true ->
   fst (setRateLimit now currentAttempts w) = inr (now + 15 * 60 * 1000) /\
   rate_limit (w_db (snd (setRateLimit now currentAttempts w)))
     = rate_limit (w_db w)).
Proof.
  intros r. unfold first_query_fails.
  unfold setRateLimit, try_catch, bind, upsert_rate_limit, pool_query, ret.
  destruct (w_faults w) as [|[|] fs]; simpl;
    (split; intros Hf; try discriminate);
    try (split; reflexivity);
    (split; [reflexivity | split; [reflexivity |]]);
    (repeat split; intros; subst r; try subst currentAttempts; try reflexivity;
     rewrite min_backoff_capped by lia; reflexivity).
Qed.

Lemma setRateLimit_backoff_witness :
  0 <= 6 /\
  first_query_fails (World (Db [] None) [] 0) = false /\
  fst (setRateLimit 1000 6 (World (Db [] None) [] 0))
    = inr (1000 + Z.min (15 * 60 * 2 ^ (6 + 1)) (24 * 60 * 60) * 1000) /\
  first_query_fails (World (Db [] None) [true] 0) = true /\
  fst (setRateLimit 1000 6 (World (Db [] None) [true] 0))
    = inr (1000 + 15 * 60 * 1000).
Proof.
  split; [lia |]. split; [reflexivity |]. split.
  - apply (setRateLimit_backoff 1000 6 (World (Db [] None) [] 0)); [lia | reflexivity].
  - split; [reflexivity |].
    apply (setRateLimit_backoff 1000 6 (World (Db [] None) [true] 0)); [lia | reflexivity].
Defined.

(** C10: [setRateLimit] never throws; when its upsert fails it returns the
    default now + 15 minutes, otherwise the computed backoff. *)
Theorem setRateLimit_never_throws (now currentAttempts : Z) (w : world) :
  fst (setRateLimit now currentAttempts w)
  = inr (if first_query_fails w then now + 15 * 60 * 1000
         else calculateResetTime now (currentAttempts + 1)).
Proof.
  unfold setRateLimit, try_catch, bind, upsert_rate_limit, pool_query, ret,
    first_query_fails.
  destruct (w_faults w) as [|[|] fs]; reflexivity.
Qed.

(** C5 (as stated), refuted: with a stored resetAt one minute ahead, a
    failing read makes [checkRateLimit] permit the request. *)
Lemma checkRateLimit_read_failure_permits :
  fst (checkRateLimit 0 (World (Db [] (Some (RateRow 60000 0 3))) [true] 0))
  = inr (RateStatus true 0 0 0).
Proof. reflexivity. Qed.

(** C5 (amended): [checkRateLimit] always returns a status. When its read
    succeeds and the row is absent or resetAt <= now, it permits with
    waitSeconds = 0; when the row has resetAt > now, it denies with the
    stored resetAt and attempts and waitSeconds = ceil((resetAt - now) / 1000 ms).
    When the read fails, it permits with waitSeconds = 0 (fail-open). *)
Theorem checkRateLimit_status (now : Z) (w : world) :
  exists st, fst (checkRateLimit now w) = inr st /\
  match first_query_fails w, rate_limit (w_db w) with
  | true, _ | false, None => canMakeRequest st = true /\ waitSeconds st = 0
  | false, Some limit =>
      if rl_value limit <=? now
      then canMakeRequest st = true /\ waitSeconds st = 0
      else canMakeRequest st = false /\ resetTime st = rl_value limit /\
           attempts st = rl_attempts limit /\
           (waitSeconds st - 1) * 1000 < rl_value limit - now
             <= waitSeconds st * 1000
  end.
Proof.
  unfold checkRateLimit, try_catch, bind, select_rate_limit, pool_query, ret,
    first_query_fails.
  assert (Hsome : forall limit : rate_row,
    exists st,
      (if now <? rl_value limit then
         RateStatus false (rl_value limit)
           (Z.max 0 (ceil_div_1000 (rl_value limit - now))) (rl_attempts limit)
       else RateStatus true now 0 0) = st /\
      (if rl_value limit <=? now
       then canMakeRequest st = true /\ waitSeconds st = 0
       else canMakeRequest st = false /\ resetTime st = rl_value limit /\
            attempts st = rl_attempts limit /\
            (waitSeconds st - 1) * 1000 < rl_value limit - now
              <= waitSeconds st * 1000)).
  { intros limit. eexists; split; [reflexivity |].
    destruct (now <? rl_value limit) eqn:Hlt;
      [apply Z.ltb_lt in Hlt | apply Z.ltb_ge in Hlt];
      destruct (rl_value limit <=? now) eqn:Hle;
      [apply Z.leb_le in Hle; lia | | auto | apply Z.leb_gt in Hle; lia].
    pose proof (ceil_div_1000_pos (rl_value limit - now) ltac:(lia)).
    simpl. rewrite Z.max_r by lia.
    repeat split; try reflexivity; apply ceil_div_1000_bounds. }
  destruct (w_faults w) as [|[|] fs]; simpl;
    try (eexists; split; [reflexivity | simpl; auto]; fail);
    destruct (rate_limit (w_db w)) as [limit|]; simpl;
    try (eexists; split; [reflexivity | simpl; auto]; fail);
    destruct (Hsome limit) as [st [Hst Hp]]; exists st; split;
    try (rewrite <- Hst; destruct (now <? rl_value limit); reflexivity);
    exact Hp.
Qed.

(** C8: [checkRateLimit] only reads: for every world, the tables (rate-limit
    row and mentions) and the upstream call count are left unchanged. *)
Theorem checkRateLimit_side_effect_free (now : Z) (w : world) :
  w_db (snd (checkRateLimit now w)) = w_db w /\
  w_twitter_calls (snd (checkRateLimit now w)) = w_twitter_calls w.
Proof.
  unfold checkRateLimit, try_catch, bind, select_rate_limit, pool_query, ret.
  destruct (w_faults w) as [|[|] fs]; simpl; auto;
    destruct (rate_limit (w_db w)) as [limit|]; simpl; auto;
    destruct (now <? rl_value limit); auto.
Qed.

End RateLimitGate.

(** ** The mentions endpoint *)

Section MentionsEndpoint.

Lemma getCachedData_ok (symbol : string) (hours now : Z) (w : world) :
  exists rows, fst (getCachedData symbol hours now w) = inr rows.
Proof.
  unfold getCachedData, try_catch, pool_query, ret.
  destruct (w_faults w) as [|[|] fs]; simpl; eauto.
Qed.

Lemma getCachedData_twitter_calls (symbol : string) (hours now : Z) (w : world) :
  w_twitter_calls (snd (getCachedData symbol hours now w)) = w_twitter_calls w.
Proof.
  unfold getCachedData, try_catch, pool_query, ret.
  destruct (w_faults w) as [|[|] fs]; reflexivity.
Qed.

Lemma sum_counts_acc (xs : list (Z * Z)) (acc : Z) :
  fold_left (fun sum d => sum + snd d) xs acc = acc + fold_right Z.add 0 (map snd xs).
Proof.
  revert acc. induction xs as [|x xs IH]; intros acc; simpl; [lia |].
  rewrite IH. lia.
Qed.

Lemma sum_counts_spec (xs : list (Z * Z)) :
  sum_counts xs = fold_right Z.add 0 (map snd xs).
Proof. unfold sum_counts. rewrite sum_counts_acc. lia. Qed.

Ltac split_results :=
  repeat match goal with
  | H : context [match ?x with _ => _ end] |- _ =>
      lazymatch x with
      | context [match _ with _ => _ end] => fail
      | _ => destruct x eqn:?
      end
  end.

(** C6: when the cache query over the last hour returns any row for the
    formatted symbol, the endpoint answers from the cache and never calls
    the Twitter client; nothing else about the rows is checked. *)
Theorem cache_hit_skips_upstream (s : string) (now : Z)
    (upstream : exn + list count_point) (w : world)
    (Hs : s <> EmptyString)
    (Hhit : match fst (getCachedData (formatSymbol s) 1 now w) with
            | inr rows => rows <> []
            | inl _ => False
            end) :
  exists ts cs tot,
    fst (mentions_handler (Some s) now upstream w)
      = inr (Json200 ts cs tot "cache" "1 hour" None) /\
    w_twitter_calls (snd (mentions_handler (Some s) now upstream w))
      = w_twitter_calls w.
Proof.
  destruct s as [|c s']; [congruence |].
  pose proof (getCachedData_twitter_calls (formatSymbol (String c s')) 1 now w)
    as Hcalls.
  unfold mentions_handler, try_catch, bind.
  destruct (getCachedData (formatSymbol (String c s')) 1 now w)
    as [[e | rows] w'] eqn:E; simpl in Hhit, Hcalls; [contradiction |].
  destruct rows as [|row rows]; [congruence |].
  do 3 eexists. split; [reflexivity | exact Hcalls].
Qed.

(** Scenario of C6: ["BTC"] is formatted to ["$BTC"], one cached row ten
    minutes old answers the request without a Twitter call. *)
Lemma cache_hit_skips_upstream_witness :
  formatSymbol "BTC" = "$BTC" /\
  "BTC" <> EmptyString /\
  fst (getCachedData (formatSymbol "BTC") 1 1704067200000
         (World (Db [MentionRow "$BTC" 4 1704066600000] None) [] 0))
    = inr [(1704066600000, 4)] /\
  exists ts cs tot,
    fst (mentions_handler (Some "BTC") 1704067200000 (inl (ApiError 429))
           (World (Db [MentionRow "$BTC" 4 1704066600000] None) [] 0))
      = inr (Json200 ts cs tot "cache" "1 hour" None) /\
    w_twitter_calls (snd (mentions_handler (Some "BTC") 1704067200000
           (inl (ApiError 429))
           (World (Db [MentionRow "$BTC" 4 1704066600000] None) [] 0)))
      = w_twitter_calls (World (Db [MentionRow "$BTC" 4 1704066600000] None) [] 0).
Proof.
  split; [reflexivity |]. split; [discriminate |]. split; [vm_compute; reflexivity |].
  apply (cache_hit_skips_upstream "BTC" 1704067200000 (inl (ApiError 429))
           (World (Db [MentionRow "$BTC" 4 1704066600000] None) [] 0)).
  - discriminate.
  - vm_compute. discriminate.
Defined.

(** C9: every 200 response of the endpoint (cache, empty upstream or
    upstream data) has totalMentions = the sum of counts and as many
    timestamps as counts. *)
Theorem json_response_consistent (symbol : option string) (now : Z)
    (upstream : exn + list count_point) (w : world)
    (ts cs : list Z) (tot : Z) (src per : string) (msg : option string)
    (H : fst (mentions_handler symbol now upstream w)
         = inr (Json200 ts cs tot src per msg)) :
  tot = fold_right Z.add 0 cs /\ List.length ts = List.length cs.
Proof.
  unfold mentions_handler, try_catch, bind, ret, throw in H.
  destruct symbol as [[|c s']|]; simpl in H; try discriminate.
  split_results; simpl in H; try discriminate;
    injection H as <- <- <- _ _ _;
    rewrite ?sum_counts_spec;
    (split; [reflexivity | simpl; rewrite ?length_map; reflexivity]).
Qed.

Lemma json_response_consistent_witness :
  fst (mentions_handler (Some "BTC") 1704067200000 (inl (ApiError 429))
         (World (Db [MentionRow "$BTC" 4 1704066600000] None) [] 0))
    = inr (Json200 [1704066600000] [4] 4 "cache" "1 hour" None) /\
  4 = fold_right Z.add 0 [4] /\ List.length [1704066600000] = List.length [4].
Proof.
  assert (H : fst (mentions_handler (Some "BTC") 1704067200000 (inl (ApiError 429))
                     (World (Db [MentionRow "$BTC" 4 1704066600000] None) [] 0))
              = inr (Json200 [1704066600000] [4] 4 "cache" "1 hour" None))
    by (vm_compute; reflexivity).
  split; [exact H |].
  exact (json_response_consistent _ _ _ _ _ _ _ _ _ _ H).
Defined.

Lemma filter_none {A} (f : A -> bool) (l : list A) :
  (forall x, In x l -> f x = false) -> filter f l = [].
Proof.
  induction l as [|x l IH]; intros Hf; simpl; [reflexivity |].
  rewrite (Hf x (or_introl eq_refl)). apply IH. intros y Hy. apply Hf. now right.
Qed.

(** No row of [symbol] in the last hour: [getCachedData] answers [[]]
    whether or not its query fails. *)
Lemma getCachedData_miss (symbol : string) (now : Z) (d : db) (f : bool)
    (fs : list bool) (calls : nat) :
  (forall r, In r (mentions d) -> m_symbol r = symbol ->
             m_timestamp r < now - 3600 * 1000) ->
  getCachedData symbol 1 now (World d (f :: fs) calls) = (inr [], World d fs calls).
Proof.
  intros Hmiss.
  unfold getCachedData, try_catch, pool_query, ret.
  destruct f; simpl; [reflexivity |].
  rewrite filter_none; [reflexivity |].
  intros r Hr. apply andb_false_iff.
  destruct (String.eqb (m_symbol r) symbol) eqn:E; [right | now left].
  apply String.eqb_eq in E. apply Z.leb_gt. specialize (Hmiss r Hr E). lia.
Qed.

(** An absent or expired row: [checkRateLimit] permits, with attempts 0,
    whether or not its query fails. *)
Lemma checkRateLimit_expired (now : Z) (d : db) (f : bool) (fs : list bool)
    (calls : nat) :
  (forall limit, rate_limit d = Some limit -> rl_value limit <= now) ->
  checkRateLimit now (World d (f :: fs) calls)
    = (inr (RateStatus true now 0 0), World d fs calls).
Proof.
  intros Hgate.
  unfold checkRateLimit, try_catch, bind, select_rate_limit, pool_query, ret.
  destruct f; simpl; [reflexivity |].
  destruct (rate_limit d) as [limit|] eqn:E; [| reflexivity].
  specialize (Hgate limit eq_refl).
  destruct (now <? rl_value limit) eqn:Hlt; [apply Z.ltb_lt in Hlt; lia | reflexivity].
Qed.

Lemma cache_all_result (symbol : string) (points : list (Z * Z)) (d : db)
    (fw rest : list bool) (calls : nat) :
  List.length fw = List.length points ->
  fst (cache_all symbol points (World d (fw ++ rest) calls))
    = if existsb id fw then inl DbError else inr tt.
Proof.
  revert d fw. induction points as [|[ts c] points IH]; intros d fw Hlen.
  - destruct fw; [reflexivity | discriminate].
  - destruct fw as [|f fw]; [discriminate |]. simpl in Hlen.
    simpl. unfold bind, cacheData, pool_query. simpl.
    destruct f; simpl; [reflexivity |]. apply IH. lia.
Qed.

(** C2 (as stated), refuted: the upstream returns one data point, the
    first cache write fails, and the request ends in a 500 error instead of
    returning the fetched series. *)
Lemma cache_write_failure_aborts_request :
  fst (mentions_handler (Some "BTC") 1704067200000
         (inr [CountPoint 1704063600000 3])
         (World (Db [] None) [false; false; true] 0)) = inr Status500 /\
  ~ exists ts cs tot src per msg,
      fst (mentions_handler (Some "BTC") 1704067200000
             (inr [CountPoint 1704063600000 3])
             (World (Db [] None) [false; false; true] 0))
      = inr (Json200 ts cs tot src per msg).
Proof.
  vm_compute. split; [reflexivity |].
  intros (ts & cs & tot & src & per & msg & H). discriminate.
Qed.

(** C2 (amended): after a cache miss and a permitted gate, an upstream
    fetch with data is returned as the series only if every per-bucket
    cache write succeeds; any failing write makes the request a 500
    error. *)
Theorem upstream_series_needs_all_cache_writes (s : string) (now : Z)
    (data : list count_point) (d : db) (f1 f2 : bool) (fw rest : list bool)
    (calls : nat)
    (Hs : s <> EmptyString) (Hdata : data <> [])
    (Hmiss : forall r, In r (mentions d) -> m_symbol r = formatSymbol s ->
                       m_timestamp r < now - 3600 * 1000)
    (Hgate : forall limit, rate_limit d = Some limit -> rl_value limit <= now)
    (Hlen : List.length fw = List.length data) :
  let processedData := map (fun dp => (cp_end dp, tweet_count dp)) data in
  fst (mentions_handler (Some s) now (inr data)
         (World d (f1 :: f2 :: fw ++ rest) calls))
  = inr (if existsb id fw then Status500
         else Json200 (map fst processedData) (map snd processedData)
                (sum_counts processedData) "twitter" "7 days" None).
Proof.
  intros processedData.
  destruct s as [|c s']; [congruence |].
  unfold mentions_handler.
  unfold try_catch at 1, bind at 1.
  rewrite (getCachedData_miss _ now d f1 (f2 :: fw ++ rest) calls Hmiss).
  unfold bind at 1.
  rewrite (checkRateLimit_expired now d f2 (fw ++ rest) calls Hgate).
  destruct data as [|dp data']; [congruence |].
  unfold processedData in *.
  unfold try_catch, bind, tweetCountsRecent, ret.
  cbn -[cache_all sum_counts formatSymbol].
  assert (Hlen' : List.length fw
                  = List.length (map (fun dp => (cp_end dp, tweet_count dp))
                                     (dp :: data')))
    by (rewrite length_map; exact Hlen).
  pose proof (cache_all_result (formatSymbol (String c s')) _ d fw rest (S calls)
                Hlen') as Hc.
  cbn -[cache_all sum_counts formatSymbol] in Hc.
  match goal with
  | |- context [cache_all ?sym ?pts ?w0] =>
      destruct (cache_all sym pts w0) as [r w'] eqn:E
  end.
  simpl in Hc. subst r.
  destruct (existsb id fw); reflexivity.
Qed.

Lemma upstream_series_needs_all_cache_writes_witness :
  "BTC" <> EmptyString /\ [CountPoint 1704063600000 3] <> [] /\
  fst (mentions_handler (Some "BTC") 1704067200000
         (inr [CountPoint 1704063600000 3])
         (World (Db [] None) (false :: false :: [false] ++ []) 0))
  = inr (Json200 [1704063600000] [3] 3 "twitter" "7 days" None).
Proof.
  split; [discriminate | split; [discriminate |]].
  apply (upstream_series_needs_all_cache_writes "BTC" 1704067200000
           [CountPoint 1704063600000 3] (Db [] None) false false [false] [] 0).
  - discriminate.
  - discriminate.
  - intros r Hr. destruct Hr.
  - intros limit Hl. discriminate.
  - reflexivity.
Defined.

(** On a request the gate lets through, a 429 from the upstream is recorded
    through [checkRateLimit], which reports attempts = 0 for the expired
    row, so the row is always rewritten with attempts = 1 and a 30 minute
    backoff. *)
Lemma throttle_after_permit_writes_first_attempt (s : string) (now : Z)
    (d : db) (rest : list bool) (calls : nat)
    (Hs : s <> EmptyString)
    (Hmiss : forall r, In r (mentions d) -> m_symbol r = formatSymbol s ->
                       m_timestamp r < now - 3600 * 1000)
    (Hgate : forall limit, rate_limit d = Some limit -> rl_value limit <= now) :
  rate_limit (w_db (snd (mentions_handler (Some s) now (inl (ApiError 429))
                           (World d (false :: false :: false :: false :: rest)
                              calls))))
  = Some (RateRow (now + 30 * 60 * 1000) now 1).
Proof.
  destruct s as [|c s']; [congruence |].
  unfold mentions_handler.
  unfold try_catch at 1, bind at 1.
  rewrite (getCachedData_miss _ now d false _ calls Hmiss).
  unfold bind at 1.
  rewrite (checkRateLimit_expired now d false _ calls Hgate).
  unfold try_catch, bind, tweetCountsRecent, ret.
  cbn -[checkRateLimit setRateLimit formatSymbol].
  rewrite (checkRateLimit_expired now d false _ (S calls) Hgate).
  cbn. reflexivity.
Qed.

(** C7 (code defect): two throttled requests in a row, the second one
    after the first backoff expired and with no reset in between: the
    stored attempts stays 1 and the backoff stays 30 minutes. *)
Theorem throttle_attempts_do_not_escalate :
  let w0 := World (Db [] None) [] 0 in
  let t0 := 1704067200000 in
  let t1 := t0 + 31 * 60 * 1000 in
  let w1 := snd (mentions_handler (Some "BTC") t0 (inl (ApiError 429)) w0) in
  let w2 := snd (mentions_handler (Some "BTC") t1 (inl (ApiError 429)) w1) in
  rate_limit (w_db w1) = Some (RateRow (t0 + 30 * 60 * 1000) t0 1) /\
  fst (mentions_handler (Some "BTC") t1 (inl (ApiError 429)) w1)
    = inr (Status429 (t1 + 30 * 60 * 1000) 1800) /\
  rate_limit (w_db w2) = Some (RateRow (t1 + 30 * 60 * 1000) t1 1) /\
  w_twitter_calls w2 = 2%nat.
Proof. vm_compute. repeat split. Qed.

End MentionsEndpoint.

(** ** Hourly bucketing *)

Module HourlyFacts.
Import Hourly.

Lemma HOUR_pos : 0 < HOUR.
Proof. unfold HOUR. lia. Qed.

Definition grid (startTime : Z) (n : nat) : list Z :=
  map (fun k => startTime + Z.of_nat k * HOUR) (seq 0 n).

Lemma grid_shift (a : Z) (n : nat) :
  map (fun k => a + HOUR + Z.of_nat k * HOUR) (seq 0 n)
  = map (fun k => a + Z.of_nat k * HOUR) (seq 1 n).
Proof.
  rewrite <- seq_shift, map_map. apply map_ext. intros k. lia.
Qed.

(** The loop stops on its test after [n + 1] rounds when
    [endTime - time] lies in [[n * HOUR, (n + 1) * HOUR)]. *)
Lemma hour_loop_grid (n : nat) : forall (time endTime : Z) (fuel : nat),
  time + Z.of_nat n * HOUR <= endTime < time + (Z.of_nat n + 1) * HOUR ->
  (n < fuel)%nat ->
  hour_loop fuel time endTime = grid time (S n).
Proof.
  pose proof HOUR_pos.
  induction n as [|n IH]; intros time endTime fuel Hb Hf;
    destruct fuel as [|fuel]; try lia; cbn [hour_loop];
    rewrite (proj2 (Z.leb_le time endTime)) by lia.
  - destruct fuel as [|fuel]; cbn [hour_loop].
    + unfold grid. simpl. f_equal. lia.
    + rewrite (proj2 (Z.leb_gt (time + HOUR) endTime)) by lia.
      unfold grid. simpl. f_equal. lia.
  - rewrite (IH (time + HOUR) endTime fuel) by lia.
    unfold grid. rewrite grid_shift.
    change (seq 0 (S (S n))) with (0%nat :: seq 1 (S n)).
    cbn [map]. f_equal. lia.
Qed.

(** For any window with [startTime <= endTime] the grid has
    [floor((endTime - startTime) / HOUR) + 1] instants. *)
Lemma hourlyTimestamps_grid (startTime endTime : Z) :
  startTime <= endTime ->
  hourlyTimestamps startTime endTime
  = grid startTime (S (Z.to_nat ((endTime - startTime) / HOUR))).
Proof.
  intros Hle. pose proof HOUR_pos.
  unfold hourlyTimestamps. apply hour_loop_grid; [| lia].
  pose proof (Z.div_mod (endTime - startTime) HOUR ltac:(lia)).
  pose proof (Z.mod_pos_bound (endTime - startTime) HOUR ltac:(lia)).
  assert (0 <= (endTime - startTime) / HOUR) by (apply Z.div_pos; lia).
  rewrite Z2Nat.id by lia. lia.
Qed.

Lemma window_grid (now : Z) :
  hourlyTimestamps (window_start now) now = grid (window_start now) 169.
Proof.
  rewrite hourlyTimestamps_grid by (unfold window_start; lia).
  unfold window_start. f_equal.
  replace (now - (now - 7 * 24 * 60 * 60 * 1000)) with (168 * HOUR)
    by (unfold HOUR; lia).
  rewrite Z.div_mul by (unfold HOUR; lia). reflexivity.
Qed.

Lemma grid_sorted (a : Z) (n : nat) : forall (b : nat),
  Sorted Z.lt (map (fun k => a + Z.of_nat k * HOUR) (seq b n)).
Proof.
  pose proof HOUR_pos.
  induction n as [|n IH]; intros b; cbn [seq map]; constructor; [apply IH |].
  destruct n; cbn [seq map]; constructor. lia.
Qed.

Lemma In_grid (a : Z) (n : nat) (t : Z) :
  In t (grid a n) <-> exists k, (k < n)%nat /\ t = a + Z.of_nat k * HOUR.
Proof.
  unfold grid. rewrite in_map_iff. split.
  - intros (k & <- & Hk). apply in_seq in Hk. exists k. split; [lia | reflexivity].
  - intros (k & Hk & ->). exists k. split; [reflexivity |]. apply in_seq. lia.
Qed.

Lemma map_get_set (m : list (Z * Z)) (k v x : Z) :
  map_get (map_set m k v) x = if k =? x then Some v else map_get m x.
Proof.
  induction m as [|[k' v'] m IH]; simpl; [reflexivity |].
  destruct (Z.eqb_spec k' k) as [->|Hne]; simpl.
  - destruct (k =? x); reflexivity.
  - rewrite IH.
    destruct (k =? x) eqn:E1; destruct (k' =? x) eqn:E2; try reflexivity.
    apply Z.eqb_eq in E1, E2. congruence.
Qed.

Definition all_zero (m : list (Z * Z)) : Prop :=
  forall k v, map_get m k = Some v -> v = 0.

Lemma seed_all_zero (l : list Z) : forall m,
  all_zero m -> all_zero (fold_left (fun m ts => map_set m ts 0) l m).
Proof.
  induction l as [|ts l IH]; intros m Hm; simpl; [exact Hm |].
  apply IH. intros k v. rewrite map_get_set.
  destruct (ts =? k); [congruence | apply Hm].
Qed.

Lemma seed_get (l : list Z) (t : Z) : get_or_0 (seed l) t = 0.
Proof.
  unfold get_or_0, seed.
  destruct (map_get _ t) eqn:E; [| reflexivity].
  apply (seed_all_zero l [] ltac:(intros k v H; discriminate) t z E).
Qed.

(** C3: for every [now], the 7-day window of the handler is non-empty and
    its series has [ceil((endTime - startTime) / HOUR) + 1 = 169] buckets,
    exactly the instants [startTime + k * HOUR] up to [endTime], each once
    and in ascending order; with no tweet every count is 0. *)
Theorem hourly_series_dense (now : Z) (tweets : list Z) :
  let startTime := window_start now in
  let endTime := now in
  let out := aggregate_hourly startTime endTime tweets in
  startTime < endTime /\
  Z.of_nat (List.length out) = - ((- (endTime - startTime)) / HOUR) + 1 /\
  (forall t, In t (map fst out) <->
             startTime <= t <= endTime /\ (t - startTime) mod HOUR = 0) /\
  Sorted Z.lt (map fst out) /\
  NoDup (map fst out) /\
  (tweets = [] -> Forall (fun p => snd p = 0) out).
Proof.
  intros startTime endTime out.
  assert (Hfst : map fst out = grid startTime 169).
  { unfold out, aggregate_hourly. rewrite map_map. simpl.
    unfold startTime, endTime. rewrite window_grid, map_id. reflexivity. }
  assert (Hwin : endTime - startTime = 168 * HOUR)
    by (unfold startTime, endTime, window_start, HOUR; lia).
  pose proof HOUR_pos.
  split; [lia |]. split.
  { rewrite <- (length_map fst out), Hfst. unfold grid.
    rewrite length_map, length_seq, Hwin.
    replace (- (168 * HOUR)) with ((-168) * HOUR) by lia.
    rewrite Z.div_mul by lia. reflexivity. }
  split.
  { intros t. rewrite Hfst, In_grid. split.
    - intros (k & Hk & ->). split; [unfold HOUR in *; lia |].
      replace (startTime + Z.of_nat k * HOUR - startTime) with (Z.of_nat k * HOUR)
        by lia.
      apply Z.mod_mul. lia.
    - intros [Hr Hm]. exists (Z.to_nat ((t - startTime) / HOUR)).
      pose proof (Z.div_mod (t - startTime) HOUR ltac:(lia)).
      assert (0 <= (t - startTime) / HOUR) by (apply Z.div_pos; lia).
      assert ((t - startTime) / HOUR <= 168).
      { apply Z.div_le_upper_bound; lia. }
      split; [lia |]. rewrite Z2Nat.id by lia. lia. }
  split; [rewrite Hfst; apply grid_sorted |].
  split.
  { rewrite Hfst. unfold grid.
    apply NoDup_map_NoDup_ForallPairs; [| apply seq_NoDup].
    intros x y _ _ Hxy. unfold HOUR in Hxy. lia. }
  intros ->. unfold out, aggregate_hourly. simpl.
  apply Forall_forall. intros p Hp. apply in_map_iff in Hp.
  destruct Hp as (ts & <- & _). apply seed_get.
Qed.

(** C4 (code defect): [now] = 2024-01-01T00:30:00Z and one tweet at
    00:20, inside the window: its hour key 00:00 is not on the grid
    (which keeps the minutes of [now]), so every count is 0. *)
Theorem hourly_in_window_tweet_lost :
  let now := 1704069000000 in
  let tweet := 1704068400000 in
  List.length (filter (in_window (window_start now) now) [tweet]) = 1%nat /\
  fold_right Z.add 0 (map snd (aggregate_hourly (window_start now) now [tweet]))
    = 0.
Proof. vm_compute. split; reflexivity. Qed.

End HourlyFacts.

(** ** Further properties of server.js *)

Section ServerExtras.

(** Both queries of a two-query sequence succeed. *)
Definition two_queries_succeed (w : world) : bool :=
  match w_faults w with
  | true :: _ | _ :: true :: _ => false
  | _ => true
  end.

(** A successful [POST /api/reset-rate-limit] is followed by a
    [checkRateLimit] that permits, with no wait and attempts 0, whatever
    the outcome of that later read. *)
Theorem reset_then_check_permits (now : Z) (w : world)
    (Hdel : first_query_fails w = false) :
  fst (reset_rate_limit_handler w) = inr ResetSuccess /\
  fst (checkRateLimit now (snd (reset_rate_limit_handler w)))
    = inr (RateStatus true now 0 0).
Proof.
  unfold first_query_fails in Hdel.
  unfold reset_rate_limit_handler, try_catch, bind, delete_rate_limit,
    pool_query, ret.
  destruct (w_faults w) as [|[|] fs]; simpl in Hdel; try discriminate;
    simpl; (split; [reflexivity |]);
    unfold checkRateLimit, try_catch, bind, select_rate_limit, pool_query, ret;
    simpl; try reflexivity;
    destruct fs as [|[|] fs']; reflexivity.
Qed.

Lemma reset_then_check_permits_witness :
  first_query_fails (World (Db [] (Some (RateRow 5000 0 4))) [] 0) = false /\
  fst (reset_rate_limit_handler (World (Db [] (Some (RateRow 5000 0 4))) [] 0))
    = inr ResetSuccess /\
  fst (checkRateLimit 1000
         (snd (reset_rate_limit_handler (World (Db [] (Some (RateRow 5000 0 4))) [] 0))))
    = inr (RateStatus true 1000 0 0).
Proof.
  split; [reflexivity |].
  apply (reset_then_check_permits 1000 (World (Db [] (Some (RateRow 5000 0 4))) [] 0)).
  reflexivity.
Defined.

(** The reset endpoint never touches the mentions table; it reports
    success exactly when its DELETE succeeds, and only then is the
    rate-limit row gone; when the DELETE fails it reports failure and the
    row is unchanged. *)
Theorem reset_rate_limit_effect (w : world) :
  mentions (w_db (snd (reset_rate_limit_handler w))) = mentions (w_db w) /\
  fst (reset_rate_limit_handler w)
    = inr (if first_query_fails w then ResetFailed else ResetSuccess) /\
  rate_limit (w_db (snd (reset_rate_limit_handler w)))
    = (if first_query_fails w then rate_limit (w_db w) else None).
Proof.
  unfold reset_rate_limit_handler, try_catch, bind, delete_rate_limit,
    pool_query, ret, first_query_fails.
  destruct (w_faults w) as [|[|] fs]; simpl; auto.
Qed.

(** [initializeDatabase] never throws and never touches the mentions
    table; it clears the rate-limit row exactly when both its CREATE
    script and its DELETE succeed. *)
Theorem initializeDatabase_effect (w : world) :
  fst (initializeDatabase w) = inr tt /\
  mentions (w_db (snd (initializeDatabase w))) = mentions (w_db w) /\
  rate_limit (w_db (snd (initializeDatabase w)))
    = if two_queries_succeed w then None else rate_limit (w_db w).
Proof.
  unfold initializeDatabase, two_queries_succeed, try_catch, bind,
    pool_query_no_rows, delete_rate_limit, pool_query, ret.
  destruct (w_faults w) as [|[|] [|[|] fs]]; simpl; auto.
Qed.

(** [GET /api/status] changes no table and calls no upstream; with the
    credentials set and a working database it always reports the API as
    available, naming the reset instant when a rate limit is active
    (the limit is reported, not enforced). *)
Theorem status_handler_read_only (hasCredentials : bool) (now : Z) (w : world) :
  w_db (snd (status_handler hasCredentials now w)) = w_db w /\
  w_twitter_calls (snd (status_handler hasCredentials now w)) = w_twitter_calls w /\
  (hasCredentials = true -> two_queries_succeed w = true ->
   fst (status_handler hasCredentials now w)
   = inr (StatusAvailable
            (match rate_limit (w_db w) with
             | Some limit => if now <? rl_value limit then Some (rl_value limit)
                             else None
             | None => None
             end))).
Proof.
  unfold status_handler, two_queries_succeed.
  destruct hasCredentials; simpl.
  2: { unfold try_catch, ret. split; [reflexivity | split; [reflexivity |]].
       discriminate. }
  unfold checkRateLimit, select_rate_limit, pool_query_no_rows, try_catch, bind,
    pool_query, ret.
  destruct (w_faults w) as [|[|] [|[|] fs]]; simpl;
    try (split; [reflexivity | split; [reflexivity | discriminate]]);
    destruct (rate_limit (w_db w)) as [limit|]; simpl;
    try (destruct (now <? rl_value limit)); simpl;
    repeat split; intros; try discriminate; reflexivity.
Qed.

(** A wait of 60 to 3599 seconds is displayed in whole minutes, rounded up:
    from 1 to 60 minutes (so 3599 s reads "60 minutes"); shorter waits are
    displayed in seconds and longer ones in hours. *)
Theorem getHumanReadableDuration_units (seconds : Z) :
  (seconds < 60 -> getHumanReadableDuration seconds = DSeconds seconds) /\
  (60 <= seconds < 3600 ->
   exists m, getHumanReadableDuration seconds = DMinutes m /\ 1 <= m <= 60 /\
             (m - 1) * 60 < seconds <= m * 60) /\
  (3600 <= seconds -> getHumanReadableDuration seconds = DHours seconds).
Proof.
  unfold getHumanReadableDuration. split; [| split]; intros Hs.
  - rewrite (proj2 (Z.ltb_lt _ _) Hs). reflexivity.
  - rewrite (proj2 (Z.ltb_ge seconds 60)) by lia.
    rewrite (proj2 (Z.ltb_lt seconds 3600)) by lia.
    eexists. split; [reflexivity |].
    pose proof (Z.div_mod (- seconds) 60 ltac:(lia)).
    pose proof (Z.mod_pos_bound (- seconds) 60 ltac:(lia)).
    lia.
  - rewrite (proj2 (Z.ltb_ge seconds 60)) by lia.
    rewrite (proj2 (Z.ltb_ge seconds 3600)) by lia. reflexivity.
Qed.

Lemma length_append (a b : string) :
  String.length (String.append a b) = (String.length a + String.length b)%nat.
Proof. induction a as [|c a IH]; simpl; congruence. Qed.

Lemma length_substring (n m : nat) (s : string) :
  (n + m <= String.length s)%nat -> String.length (substring n m s) = m.
Proof.
  revert n m. induction s as [|c s IH]; intros n m Hle.
  - simpl in Hle. assert (n = 0%nat /\ m = 0%nat) as [-> ->] by lia. reflexivity.
  - destruct n as [|n].
    + destruct m as [|m]; simpl in *; [reflexivity |].
      f_equal. apply (IH 0%nat). lia.
    + simpl in *. apply IH. lia.
Qed.

(** [maskCredential] never returns more than 11 characters, and exactly 11
    for every credential longer than 8 characters: the mask does not tell
    how long a long credential is. *)
Theorem maskCredential_length (credential : option string) :
  (String.length (maskCredential credential) <= 11)%nat /\
  (forall c, credential = Some c -> (8 < String.length c)%nat ->
             String.length (maskCredential credential) = 11%nat).
Proof.
  assert (Hlong : forall c, (8 < String.length c)%nat ->
            String.length (String.append (substring 0 4 c)
              (String.append "..." (substring (String.length c - 4) 4 c))) = 11%nat).
  { intros c Hc. rewrite !length_append, !length_substring by lia. reflexivity. }
  destruct credential as [[|ch c']|].
  - split; [simpl; lia |]. intros c [= <-]. simpl. lia.
  - unfold maskCredential.
    destruct (Nat.leb (String.length (String ch c')) 8) eqn:E.
    + apply Nat.leb_le in E. split; [simpl; lia |].
      intros c [= <-] Hc. lia.
    + apply Nat.leb_gt in E. rewrite Hlong by exact E.
      split; [lia | intros c [= <-] _; reflexivity].
  - split; [simpl; lia | discriminate].
Qed.

End ServerExtras.

(** ** The 15-minute series of the 1-hour variant *)

Module QuarterFacts.
Import Hourly Quarter.

(** The sum of the counts of a [Map] (or of its entries). *)
Definition total (m : list (Z * Z)) : Z := fold_right Z.add 0 (map snd m).

Lemma map_set_total (m : list (Z * Z)) (k v : Z) :
  total (map_set m k v) = total m - get_or_0 m k + v.
Proof.
  unfold total, get_or_0.
  induction m as [|[k' v'] m IH]; simpl; [lia |].
  destruct (k' =? k); simpl; [lia |].
  rewrite IH. lia.
Qed.

Lemma count_tweets_total (tweets : list Z) : forall m,
  total (count_tweets m tweets) = total m + Z.of_nat (List.length tweets).
Proof.
  induction tweets as [|t tweets IH]; intros m; simpl; [lia |].
  unfold count_tweets in *. simpl. rewrite IH, map_set_total. lia.
Qed.

Lemma map_set_zero (m : list (Z * Z)) (k : Z) :
  Forall (fun p => snd p = 0) m -> Forall (fun p => snd p = 0) (map_set m k 0).
Proof.
  induction m as [|[k' v'] m IH]; intros Hm; simpl.
  - repeat constructor.
  - inversion Hm; subst. destruct (k' =? k); constructor; auto.
Qed.

Lemma seed_total (grid : list Z) : total (seed grid) = 0.
Proof.
  assert (H : forall l m, Forall (fun p => snd p = 0) m ->
            Forall (fun p => snd p = 0) (fold_left (fun m ts => map_set m ts 0) l m)).
  { induction l as [|ts l IH]; intros m Hm; simpl; [exact Hm |].
    apply IH, map_set_zero, Hm. }
  specialize (H grid [] (Forall_nil _)). unfold seed, total.
  induction H as [|[k v] m Hv _ IH]; simpl in *; lia.
Qed.

Lemma map_set_keys (m : list (Z * Z)) (k v x : Z) :
  In x (map fst (map_set m k v)) <-> x = k \/ In x (map fst m).
Proof.
  induction m as [|[k' v'] m IH]; simpl.
  - split; intros [H | H]; auto; contradiction.
  - destruct (Z.eqb_spec k' k) as [->|Hne]; simpl.
    + split; [intros [<- | H]; auto |].
      intros [-> | [H | H]]; auto.
    + rewrite IH. tauto.
Qed.

Lemma map_set_nodup (m : list (Z * Z)) (k v : Z) :
  NoDup (map fst m) -> NoDup (map fst (map_set m k v)).
Proof.
  induction m as [|[k' v'] m IH]; intros Hnd; simpl.
  - repeat constructor. intros [].
  - inversion Hnd as [|? ? Hnotin Hnd']; subst.
    destruct (Z.eqb_spec k' k) as [->|Hne]; simpl; constructor; auto.
    rewrite map_set_keys. intros [-> | Hin]; [congruence | contradiction].
Qed.

Lemma count_tweets_keys (tweets : list Z) : forall m x,
  In x (map fst (count_tweets m tweets)) <->
  In x (map fst m) \/ exists t, In t tweets /\ floor_quarter t = x.
Proof.
  induction tweets as [|t tweets IH]; intros m x; unfold count_tweets in *; simpl.
  - split; [tauto |]. intros [H | (t & [] & _)]. exact H.
  - rewrite IH, map_set_keys. split.
    + intros [[-> | H] | (t' & Hin & <-)]; eauto.
    + intros [H | (t' & [<- | Hin] & <-)]; eauto.
Qed.

Lemma count_tweets_nodup (tweets : list Z) : forall m,
  NoDup (map fst m) -> NoDup (map fst (count_tweets m tweets)).
Proof.
  induction tweets as [|t tweets IH]; intros m Hm; unfold count_tweets in *;
    simpl; [exact Hm |].
  apply IH, map_set_nodup, Hm.
Qed.

Lemma seed_keys (grid : list Z) (x : Z) :
  In x (map fst (seed grid)) <-> In x grid.
Proof.
  unfold seed.
  assert (H : forall m, In x (map fst (fold_left (fun m ts => map_set m ts 0) grid m))
                        <-> In x (map fst m) \/ In x grid).
  { induction grid as [|g grid IH]; intros m; simpl; [tauto |].
    rewrite IH, map_set_keys.
    split; [intros [[-> | H] | H]; auto |].
    intros [H | [<- | H]]; auto. }
  rewrite H. simpl. tauto.
Qed.

Lemma seed_nodup (grid : list Z) : NoDup (map fst (seed grid)).
Proof.
  unfold seed.
  assert (H : forall m, NoDup (map fst m) ->
            NoDup (map fst (fold_left (fun m ts => map_set m ts 0) grid m))).
  { induction grid as [|g grid IH]; intros m Hm; simpl; [exact Hm |].
    apply IH, map_set_nodup, Hm. }
  apply H. constructor.
Qed.

Lemma insert_by_timestamp_perm (r : Z * Z) (l : list (Z * Z)) :
  Permutation (insert_by_timestamp r l) (r :: l).
Proof.
  induction l as [|x l IH]; simpl; [reflexivity |].
  destruct (fst x <=? fst r); [| reflexivity].
  rewrite IH. apply perm_swap.
Qed.

Lemma sort_by_timestamp_perm (l : list (Z * Z)) :
  Permutation (sort_by_timestamp l) l.
Proof.
  induction l as [|x l IH]; simpl; [reflexivity |].
  rewrite insert_by_timestamp_perm, IH. reflexivity.
Qed.

Definition le_fst (x y : Z * Z) : Prop := fst x <= fst y.

Lemma insert_by_timestamp_hd (a r : Z * Z) (l : list (Z * Z)) :
  HdRel le_fst a l -> le_fst a r -> HdRel le_fst a (insert_by_timestamp r l).
Proof.
  intros Hhd Har. destruct l as [|x l]; simpl; [constructor; exact Har |].
  destruct (fst x <=? fst r); constructor; [inversion Hhd; assumption | exact Har].
Qed.

Lemma insert_by_timestamp_sorted (r : Z * Z) (l : list (Z * Z)) :
  Sorted le_fst l -> Sorted le_fst (insert_by_timestamp r l).
Proof.
  induction l as [|x l IH]; intros Hs; simpl; [repeat constructor |].
  inversion Hs as [|? ? Hs' Hhd]; subst.
  destruct (fst x <=? fst r) eqn:E.
  - apply Z.leb_le in E. constructor; [apply IH, Hs' |].
    apply insert_by_timestamp_hd; assumption.
  - apply Z.leb_gt in E. constructor; [exact Hs |].
    constructor. unfold le_fst. lia.
Qed.

Lemma sort_by_timestamp_sorted (l : list (Z * Z)) :
  Sorted le_fst (sort_by_timestamp l).
Proof.
  induction l as [|x l IH]; simpl; [constructor |].
  apply insert_by_timestamp_sorted, IH.
Qed.

Lemma sorted_keys (l : list (Z * Z)) :
  Sorted le_fst l -> Sorted Z.le (map fst l).
Proof.
  induction 1 as [|x l Hs IH Hhd]; simpl; constructor; [exact IH |].
  destruct Hhd; simpl; constructor; assumption.
Qed.

Lemma total_perm (l l' : list (Z * Z)) : Permutation l l' -> total l = total l'.
Proof.
  induction 1; unfold total in *; simpl in *; lia.
Qed.

(** In the 1-hour variant every fetched tweet is counted: the counts of the
    returned series add up to the number of tweets, and the quarter-hour
    of each tweet is one of the series' instants, even when it falls off
    the seeded grid (the entries of the [Map] are all kept). *)
Theorem aggregate_quarter_counts_every_tweet (now : Z) (tweets : list Z) :
  total (aggregate_quarter now tweets) = Z.of_nat (List.length tweets) /\
  (forall t, In t tweets ->
             In (floor_quarter t) (map fst (aggregate_quarter now tweets))).
Proof.
  unfold aggregate_quarter. split.
  - rewrite (total_perm _ _ (sort_by_timestamp_perm _)).
    rewrite count_tweets_total, seed_total. lia.
  - intros t Ht.
    apply (Permutation_in _ (Permutation_map fst
             (Permutation_sym (sort_by_timestamp_perm _)))).
    apply count_tweets_keys. right. eauto.
Qed.

(** The 1-hour series lists each instant once, in ascending order, and
    contains every seeded quarter-hour of the last hour (count 0 when no
    tweet falls there). *)
Theorem aggregate_quarter_shape (now : Z) (tweets : list Z) :
  NoDup (map fst (aggregate_quarter now tweets)) /\
  Sorted Z.le (map fst (aggregate_quarter now tweets)) /\
  (forall g, In g (quarterTimestamps (now - 60 * 60 * 1000) now) ->
             In g (map fst (aggregate_quarter now tweets))).
Proof.
  unfold aggregate_quarter. split; [| split].
  - eapply Permutation_NoDup.
    + apply Permutation_map, Permutation_sym, sort_by_timestamp_perm.
    + apply count_tweets_nodup, seed_nodup.
  - apply sorted_keys, sort_by_timestamp_sorted.
  - intros g Hg.
    apply (Permutation_in _ (Permutation_map fst
             (Permutation_sym (sort_by_timestamp_perm _)))).
    apply count_tweets_keys. left. apply seed_keys, Hg.
Qed.

End QuarterFacts.

(** ** Further paths of [GET /api/mentions] *)

Section MentionsPaths.

Lemma formatSymbol_prefix (s : string) : String.prefix "$" (formatSymbol s) = true.
Proof.
  unfold formatSymbol. destruct (String.prefix "$" s) eqn:E; [exact E |].
  destruct s; reflexivity.
Qed.

Lemma formatSymbol_idem (s : string) : formatSymbol (formatSymbol s) = formatSymbol s.
Proof. unfold formatSymbol at 1. rewrite formatSymbol_prefix. reflexivity. Qed.

Lemma formatSymbol_nonempty (s : string) : formatSymbol s <> EmptyString.
Proof.
  intros H. pose proof (formatSymbol_prefix s) as Hp. rewrite H in Hp. discriminate.
Qed.

Lemma checkRateLimit_active (now : Z) (d : db) (fs : list bool) (calls : nat)
    (limit : rate_row) :
  rate_limit d = Some limit -> now < rl_value limit ->
  checkRateLimit now (World d (false :: fs) calls)
  = (inr (RateStatus false (rl_value limit) (ceil_div_1000 (rl_value limit - now))
            (rl_attempts limit)), World d fs calls).
Proof.
  intros Hl Hlt.
  unfold checkRateLimit, try_catch, bind, select_rate_limit, pool_query, ret.
  simpl. rewrite Hl, (proj2 (Z.ltb_lt _ _) Hlt).
  pose proof (ceil_div_1000_pos (rl_value limit - now) ltac:(lia)).
  rewrite Z.max_r by lia. reflexivity.
Qed.

(** A request for ["BTC"] and one for ["$BTC"] are the same request: the
    handler only ever uses the formatted symbol, and formatting is
    idempotent; response and world agree for every upstream answer and
    every database state. *)
Theorem mentions_handler_symbol_canonical (s : string) (now : Z)
    (upstream : exn + list count_point) (w : world)
    (Hs : s <> EmptyString) :
  mentions_handler (Some s) now upstream w
  = mentions_handler (Some (formatSymbol s)) now upstream w.
Proof.
  destruct s as [|c s']; [congruence |].
  pose proof (formatSymbol_idem (String c s')) as Hi.
  pose proof (formatSymbol_nonempty (String c s')) as Hne.
  destruct (formatSymbol (String c s')) as [|c' s''] eqn:Hf; [congruence |].
  unfold mentions_handler. cbv beta iota zeta.
  rewrite Hf, Hi. reflexivity.
Qed.

Lemma mentions_handler_symbol_canonical_witness :
  "BTC" <> EmptyString /\
  mentions_handler (Some "BTC") 1704067200000 (inr [CountPoint 1704063600000 3])
    (World (Db [] None) [] 0)
  = mentions_handler (Some (formatSymbol "BTC")) 1704067200000
      (inr [CountPoint 1704063600000 3]) (World (Db [] None) [] 0).
Proof.
  split; [discriminate |].
  apply (mentions_handler_symbol_canonical "BTC" 1704067200000
           (inr [CountPoint 1704063600000 3]) (World (Db [] None) [] 0)).
  discriminate.
Defined.

(** On a cache miss, an active rate limit read from the database answers
    429 with the stored reset instant and the remaining time rounded up
    to whole seconds; the Twitter client is not called and no table is
    written. *)
Theorem active_limit_answers_429 (s : string) (now : Z)
    (upstream : exn + list count_point) (d : db) (f1 : bool) (rest : list bool)
    (calls : nat) (limit : rate_row)
    (Hs : s <> EmptyString)
    (Hmiss : forall r, In r (mentions d) -> m_symbol r = formatSymbol s ->
                       m_timestamp r < now - 3600 * 1000)
    (Hlimit : rate_limit d = Some limit) (Hactive : now < rl_value limit) :
  exists waitSeconds,
    mentions_handler (Some s) now upstream (World d (f1 :: false :: rest) calls)
    = (inr (Status429 (rl_value limit) waitSeconds), World d rest calls) /\
    (waitSeconds - 1) * 1000 < rl_value limit - now <= waitSeconds * 1000.
Proof.
  destruct s as [|c s']; [congruence |].
  exists (ceil_div_1000 (rl_value limit - now)).
  split; [| apply ceil_div_1000_bounds].
  unfold mentions_handler.
  unfold try_catch at 1, bind at 1.
  rewrite (getCachedData_miss _ now d f1 (false :: rest) calls Hmiss).
  unfold bind at 1.
  rewrite (checkRateLimit_active now d rest calls limit Hlimit Hactive).
  reflexivity.
Qed.

Lemma active_limit_answers_429_witness :
  exists waitSeconds,
    mentions_handler (Some "BTC") 1704067200000 (inr [])
      (World (Db [] (Some (RateRow 1704067201500 1704067000000 2))) [false; false] 0)
    = (inr (Status429 1704067201500 waitSeconds),
       World (Db [] (Some (RateRow 1704067201500 1704067000000 2))) [] 0) /\
    (waitSeconds - 1) * 1000 < 1704067201500 - 1704067200000 <= waitSeconds * 1000.
Proof.
  apply (active_limit_answers_429 "BTC" 1704067200000 (inr [])
           (Db [] (Some (RateRow 1704067201500 1704067000000 2))) false [] 0
           (RateRow 1704067201500 1704067000000 2)).
  - discriminate.
  - intros r [].
  - reflexivity.
  - simpl. lia.
Defined.

(** After a cache miss and a permitted gate, an upstream error other than
    429 is rethrown and turned into a 500 error by the outer handler;
    the Twitter client was called once and no table is written. *)
Theorem upstream_error_answers_500 (s : string) (now : Z) (e : exn) (d : db)
    (f1 f2 : bool) (rest : list bool) (calls : nat)
    (Hs : s <> EmptyString)
    (Hmiss : forall r, In r (mentions d) -> m_symbol r = formatSymbol s ->
                       m_timestamp r < now - 3600 * 1000)
    (Hgate : forall limit, rate_limit d = Some limit -> rl_value limit <= now)
    (He : e <> ApiError 429) :
  mentions_handler (Some s) now (inl e) (World d (f1 :: f2 :: rest) calls)
  = (inr Status500, World d rest (S calls)).
Proof.
  destruct s as [|c s']; [congruence |].
  unfold mentions_handler.
  unfold try_catch at 1, bind at 1.
  rewrite (getCachedData_miss _ now d f1 (f2 :: rest) calls Hmiss).
  unfold bind at 1.
  rewrite (checkRateLimit_expired now d f2 rest calls Hgate).
  unfold try_catch, bind, tweetCountsRecent, ret, throw. simpl.
  destruct e as [|code]; [reflexivity |].
  destruct code as [|p|p]; try reflexivity.
  repeat (destruct p as [p|p|]; try reflexivity).
  exfalso. apply He. reflexivity.
Qed.

Lemma upstream_error_answers_500_witness :
  mentions_handler (Some "BTC") 1704067200000 (inl (ApiError 503))
    (World (Db [] None) [false; false] 0)
  = (inr Status500, World (Db [] None) [] 1).
Proof.
  apply (upstream_error_answers_500 "BTC" 1704067200000 (ApiError 503)
           (Db [] None) false false [] 0).
  - discriminate.
  - intros r [].
  - intros limit H. discriminate.
  - discriminate.
Defined.

(** After a cache miss and a permitted gate, an upstream answer without
    data gives the empty 7-day series with its message; nothing is
    cached. *)
Theorem empty_upstream_answers_empty_series (s : string) (now : Z) (d : db)
    (f1 f2 : bool) (rest : list bool) (calls : nat)
    (Hs : s <> EmptyString)
    (Hmiss : forall r, In r (mentions d) -> m_symbol r = formatSymbol s ->
                       m_timestamp r < now - 3600 * 1000)
    (Hgate : forall limit, rate_limit d = Some limit -> rl_value limit <= now) :
  mentions_handler (Some s) now (inr []) (World d (f1 :: f2 :: rest) calls)
  = (inr (Json200 [] [] 0 "twitter" "7 days"
            (Some "No mentions found in the last 7 days")),
     World d rest (S calls)).
Proof.
  destruct s as [|c s']; [congruence |].
  unfold mentions_handler.
  unfold try_catch at 1, bind at 1.
  rewrite (getCachedData_miss _ now d f1 (f2 :: rest) calls Hmiss).
  unfold bind at 1.
  rewrite (checkRateLimit_expired now d f2 rest calls Hgate).
  reflexivity.
Qed.

Lemma empty_upstream_answers_empty_series_witness :
  mentions_handler (Some "ETH") 1704067200000 (inr [])
    (World (Db [MentionRow "$ETH" 2 1704000000000] (Some (RateRow 1704060000000 1704058200000 1)))
       [false; true] 7)
  = (inr (Json200 [] [] 0 "twitter" "7 days"
            (Some "No mentions found in the last 7 days")),
     World (Db [MentionRow "$ETH" 2 1704000000000]
              (Some (RateRow 1704060000000 1704058200000 1))) [] 8).
Proof.
  apply (empty_upstream_answers_empty_series "ETH" 1704067200000
           (Db [MentionRow "$ETH" 2 1704000000000]
               (Some (RateRow 1704060000000 1704058200000 1))) false true [] 7).
  - discriminate.
  - intros r [<- | []] _. simpl. lia.
  - intros limit H. injection H as <-. simpl. lia.
Defined.

End MentionsPaths.

(** ** What a request may do to the tables *)

Section Preserves.

Variable R : db -> db -> Prop.
Hypothesis R_refl : forall d, R d d.
Hypothesis R_trans : forall d1 d2 d3, R d1 d2 -> R d2 d3 -> R d1 d3.

(** Every run of [m], whatever its outcome, relates the tables before and
    after by [R]. *)
Definition preserves {A} (m : M A) : Prop :=
  forall w, R (w_db w) (w_db (snd (m w))).

Lemma preserves_ret {A} (a : A) : preserves (ret a).
Proof. intros w. apply R_refl. Qed.

Lemma preserves_throw {A} (e : exn) : preserves (@throw A e).
Proof. intros w. apply R_refl. Qed.

Lemma preserves_bind {A B} (m : M A) (k : A -> M B) :
  preserves m -> (forall a, preserves (k a)) -> preserves (bind m k).
Proof.
  intros Hm Hk w. unfold bind. specialize (Hm w).
  destruct (m w) as [[e | a] w'] eqn:E; simpl in *; [exact Hm |].
  eapply R_trans; [exact Hm | apply Hk].
Qed.

Lemma preserves_try_catch {A} (m : M A) (h : exn -> M A) :
  preserves m -> (forall e, preserves (h e)) -> preserves (try_catch m h).
Proof.
  intros Hm Hh w. unfold try_catch. specialize (Hm w).
  destruct (m w) as [[e | a] w'] eqn:E; simpl in *; [| exact Hm].
  eapply R_trans; [exact Hm | apply Hh].
Qed.

Lemma preserves_pool_query {A} (run : db -> A * db) :
  (forall d, R d (snd (run d))) -> preserves (pool_query run).
Proof.
  intros Hrun w. unfold pool_query.
  destruct (w_faults w) as [|[|] fs]; simpl; try apply R_refl;
    specialize (Hrun (w_db w)); destruct (run (w_db w)); exact Hrun.
Qed.

Lemma preserves_tweetCountsRecent (upstream : exn + list count_point) :
  preserves (tweetCountsRecent upstream).
Proof. intros w. apply R_refl. Qed.

Lemma preserves_getCachedData (symbol : string) (hours now : Z) :
  preserves (getCachedData symbol hours now).
Proof.
  apply preserves_try_catch; [| intros; apply preserves_ret].
  apply preserves_pool_query. intros d. apply R_refl.
Qed.

Lemma preserves_checkRateLimit (now : Z) : preserves (checkRateLimit now).
Proof.
  apply preserves_try_catch; [| intros; apply preserves_ret].
  apply preserves_bind.
  - apply preserves_pool_query. intros d. apply R_refl.
  - intros [limit|]; [destruct (now <? rl_value limit) |]; apply preserves_ret.
Qed.

End Preserves.

Section TableFrames.

(** The rows of symbols other than [symbol]. *)
Definition other_rows (symbol : string) (d : db) : list mention_row :=
  filter (fun r => negb (String.eqb (m_symbol r) symbol)) (mentions d).

Definition row_key (r : mention_row) : string * Z := (m_symbol r, m_timestamp r).

(** The mentions table changes only on the rows of [symbol]: the other
    rows stay as they are, no key disappears, and the uniqueness of
    [(symbol, timestamp)] is kept. *)
Definition mentions_frame (symbol : string) (d d' : db) : Prop :=
  other_rows symbol d' = other_rows symbol d /\
  incl (map row_key (mentions d)) (map row_key (mentions d')) /\
  (NoDup (map row_key (mentions d)) -> NoDup (map row_key (mentions d'))).

(** The rate-limit row is kept, or is replaced by one written at [now]
    whose reset instant is not in the past. *)
Definition rate_limit_frame (now : Z) (d d' : db) : Prop :=
  rate_limit d' = rate_limit d \/
  exists r, rate_limit d' = Some r /\ rl_updated_at r = now /\ now <= rl_value r.

Lemma mentions_frame_refl (symbol : string) (d : db) : mentions_frame symbol d d.
Proof. repeat split; auto using incl_refl. Qed.

Lemma mentions_frame_trans (symbol : string) (d1 d2 d3 : db) :
  mentions_frame symbol d1 d2 -> mentions_frame symbol d2 d3 ->
  mentions_frame symbol d1 d3.
Proof.
  intros (H1 & H2 & H3) (H1' & H2' & H3'). repeat split.
  - congruence.
  - eapply incl_tran; eassumption.
  - auto.
Qed.

Lemma rate_limit_frame_refl (now : Z) (d : db) : rate_limit_frame now d d.
Proof. left. reflexivity. Qed.

Lemma rate_limit_frame_trans (now : Z) (d1 d2 d3 : db) :
  rate_limit_frame now d1 d2 -> rate_limit_frame now d2 d3 ->
  rate_limit_frame now d1 d3.
Proof.
  intros [H | H] [H' | H']; unfold rate_limit_frame.
  - left. congruence.
  - right. exact H'.
  - right. rewrite H'. exact H.
  - right. exact H'.
Qed.

Lemma same_key_row_key (symbol : string) (timestamp : Z) (r : mention_row) :
  same_key symbol timestamp r = true <-> row_key r = (symbol, timestamp).
Proof.
  unfold same_key, row_key. rewrite andb_true_iff, String.eqb_eq, Z.eqb_eq.
  split; [intros [-> ->]; reflexivity | intros H; injection H as -> ->; auto].
Qed.

Lemma upsert_mention_keys_existing (symbol : string) (count timestamp : Z)
    (rows : list mention_row) :
  map row_key (map (fun r => if same_key symbol timestamp r
                             then MentionRow symbol count timestamp else r) rows)
  = map row_key rows.
Proof.
  induction rows as [|r rows IH]; simpl; [reflexivity |].
  rewrite IH. f_equal.
  destruct (same_key symbol timestamp r) eqn:E; [| reflexivity].
  apply same_key_row_key in E. rewrite E. reflexivity.
Qed.

Lemma existsb_row_key (symbol : string) (timestamp : Z) (rows : list mention_row) :
  existsb (same_key symbol timestamp) rows = false ->
  ~ In (symbol, timestamp) (map row_key rows).
Proof.
  intros Hex Hin. apply in_map_iff in Hin as (r & Hr & Hin).
  assert (Hs : same_key symbol timestamp r = true) by (apply same_key_row_key; exact Hr).
  pose proof (proj2 (existsb_exists _ rows) (ex_intro _ r (conj Hin Hs))). congruence.
Qed.

Lemma filter_upsert_map (symbol : string) (count timestamp : Z)
    (rows : list mention_row) :
  filter (fun r => negb (String.eqb (m_symbol r) symbol))
    (map (fun r => if same_key symbol timestamp r
                   then MentionRow symbol count timestamp else r) rows)
  = filter (fun r => negb (String.eqb (m_symbol r) symbol)) rows.
Proof.
  induction rows as [|r rows IH]; simpl; [reflexivity |].
  destruct (same_key symbol timestamp r) eqn:E; simpl.
  - apply same_key_row_key in E. unfold row_key in E. injection E as Hs _.
    rewrite Hs, String.eqb_refl. simpl. exact IH.
  - rewrite IH. reflexivity.
Qed.

Lemma upsert_mention_frame (symbol : string) (count timestamp : Z) (d : db) :
  mentions_frame symbol d
    (Db (upsert_mention symbol count timestamp (mentions d)) (rate_limit d)).
Proof.
  unfold mentions_frame, other_rows, upsert_mention. simpl.
  destruct (existsb (same_key symbol timestamp) (mentions d)) eqn:Hex.
  - rewrite filter_upsert_map, upsert_mention_keys_existing.
    split; [reflexivity | split; [apply incl_refl | auto]].
  - rewrite filter_app. simpl. rewrite String.eqb_refl. simpl.
    rewrite app_nil_r. split; [reflexivity |].
    rewrite map_app. split.
    + apply incl_appl, incl_refl.
    + intros Hnd. apply (Permutation_NoDup (Permutation_cons_append _ _)).
      constructor; [apply existsb_row_key; exact Hex | exact Hnd].
Qed.

(** One step through the request, with reflexivity and transitivity of
    the relation in the context. *)
Ltac preserve_step :=
  match goal with
  | |- preserves _ (ret _) => apply preserves_ret; assumption
  | |- preserves _ (throw _) => apply preserves_throw; assumption
  | |- preserves _ (bind _ _) =>
      apply preserves_bind; [assumption | | intros ?; cbv beta]
  | |- preserves _ (try_catch _ _) =>
      apply preserves_try_catch; [assumption | | intros ?; cbv beta]
  | |- preserves _ (getCachedData _ _ _) => apply preserves_getCachedData; assumption
  | |- preserves _ (checkRateLimit _) => apply preserves_checkRateLimit; assumption
  | |- preserves _ (tweetCountsRecent _) => apply preserves_tweetCountsRecent; assumption
  | |- preserves _ (match ?x with _ => _ end) => destruct x
  end.

Lemma cache_all_mentions_frame (symbol : string) (points : list (Z * Z)) :
  preserves (mentions_frame symbol) (cache_all symbol points).
Proof.
  induction points as [|[ts c] points IH]; simpl.
  - apply preserves_ret, mentions_frame_refl.
  - apply preserves_bind; [exact (mentions_frame_trans symbol) | | intros _; exact IH].
    apply preserves_pool_query; [exact (mentions_frame_refl symbol) |].
    intros d. apply upsert_mention_frame.
Qed.

Lemma setRateLimit_mentions_frame (symbol : string) (now a : Z) :
  preserves (mentions_frame symbol) (setRateLimit now a).
Proof.
  apply preserves_try_catch; [exact (mentions_frame_trans symbol) | |
    intros; apply preserves_ret, mentions_frame_refl].
  apply preserves_bind; [exact (mentions_frame_trans symbol) | |
    intros; apply preserves_ret, mentions_frame_refl].
  apply preserves_pool_query; [exact (mentions_frame_refl symbol) |].
  intros d. unfold mentions_frame, other_rows. simpl.
  repeat split; auto using incl_refl.
Qed.

(** Whatever the request, the database state and the upstream answer,
    [GET /api/mentions?symbol=s] only writes rows of the formatted symbol
    of [s]: the rows of every other symbol are left untouched, no row is
    deleted, and the uniqueness of [(symbol, timestamp)] is kept. *)
Theorem mentions_handler_frames_other_symbols (s : string) (now : Z)
    (upstream : exn + list count_point) (w : world) :
  mentions_frame (formatSymbol s) (w_db w)
    (w_db (snd (mentions_handler (Some s) now upstream w))).
Proof.
  revert w. fold (preserves (mentions_frame (formatSymbol s))
                    (mentions_handler (Some s) now upstream)).
  pose proof (mentions_frame_refl (formatSymbol s)) as Hrefl.
  pose proof (mentions_frame_trans (formatSymbol s)) as Htrans.
  unfold mentions_handler.
  destruct s as [|c s']; [apply preserves_ret; exact Hrefl |].
  cbv zeta.
  repeat (preserve_step
          || apply cache_all_mentions_frame
          || apply setRateLimit_mentions_frame).
Qed.

Lemma cache_all_rate_limit_frame (now : Z) (symbol : string) (points : list (Z * Z)) :
  preserves (rate_limit_frame now) (cache_all symbol points).
Proof.
  induction points as [|[ts c] points IH]; simpl.
  - apply preserves_ret, rate_limit_frame_refl.
  - apply preserves_bind; [exact (rate_limit_frame_trans now) | | intros _; exact IH].
    apply preserves_pool_query; [exact (rate_limit_frame_refl now) |].
    intros d. left. reflexivity.
Qed.

Lemma setRateLimit_rate_limit_frame (now a : Z) :
  preserves (rate_limit_frame now) (setRateLimit now a).
Proof.
  apply preserves_try_catch; [exact (rate_limit_frame_trans now) | |
    intros; apply preserves_ret, rate_limit_frame_refl].
  apply preserves_bind; [exact (rate_limit_frame_trans now) | |
    intros; apply preserves_ret, rate_limit_frame_refl].
  apply preserves_pool_query; [exact (rate_limit_frame_refl now) |].
  intros d. right. eexists; split; [reflexivity |]. simpl. split; [reflexivity |].
  unfold calculateResetTime.
  assert (0 <= 2 ^ (a + 1)) by (apply Z.pow_nonneg; lia).
  lia.
Qed.

(** Whatever the request, the database state and the upstream answer,
    [GET /api/mentions] either keeps the rate-limit row or replaces it by
    one written at the request's instant whose reset instant is not in the
    past; it never deletes the row. *)
Theorem mentions_handler_rate_limit_writes (symbol : option string) (now : Z)
    (upstream : exn + list count_point) (w : world) :
  rate_limit_frame now (w_db w)
    (w_db (snd (mentions_handler symbol now upstream w))).
Proof.
  revert w. fold (preserves (rate_limit_frame now)
                    (mentions_handler symbol now upstream)).
  pose proof (rate_limit_frame_refl now) as Hrefl.
  pose proof (rate_limit_frame_trans now) as Htrans.
  unfold mentions_handler.
  destruct symbol as [[|c s']|]; try (apply preserves_ret; exact Hrefl).
  cbv zeta.
  repeat (preserve_step
          || apply cache_all_rate_limit_frame
          || apply setRateLimit_rate_limit_frame).
Qed.

End TableFrames.

(** ** Cache round trip *)

Section CacheRoundTrip.

Lemma upsert_mention_key_rows (symbol : string) (count timestamp : Z)
    (rows : list mention_row) (r : mention_row) :
  In r (upsert_mention symbol count timestamp rows) ->
  same_key symbol timestamp r = true -> r = MentionRow symbol count timestamp.
Proof.
  unfold upsert_mention. intros Hin Hs.
  destruct (existsb (same_key symbol timestamp) rows) eqn:Hex.
  - apply in_map_iff in Hin as (r0 & <- & Hin).
    destruct (same_key symbol timestamp r0) eqn:E; [reflexivity | congruence].
  - apply in_app_iff in Hin as [Hin | [<- | []]]; [| reflexivity].
    assert (existsb (same_key symbol timestamp) rows = true)
      by (apply existsb_exists; eauto).
    congruence.
Qed.

Lemma upsert_mention_in (symbol : string) (count timestamp : Z)
    (rows : list mention_row) :
  In (MentionRow symbol count timestamp) (upsert_mention symbol count timestamp rows).
Proof.
  unfold upsert_mention.
  destruct (existsb (same_key symbol timestamp) rows) eqn:Hex.
  - apply existsb_exists in Hex as (r0 & Hin & Hs).
    apply in_map_iff. exists r0. rewrite Hs. auto.
  - apply in_app_iff. right. left. reflexivity.
Qed.

(** After [cacheData(s, c, ts)] succeeds, a successful
    [getCachedData(s, 1)] at an instant less than an hour after [ts]
    returns the point [(ts, c)], and no other count for [ts]: the last
    write wins. *)
Theorem cacheData_then_getCachedData (symbol : string) (count timestamp now : Z)
    (d : db) (rest : list bool) (calls : nat)
    (Hwin : now - 3600 * 1000 <= timestamp) :
  exists rows,
    fst (getCachedData symbol 1 now
           (snd (cacheData symbol count timestamp
                   (World d (false :: false :: rest) calls)))) = inr rows /\
    In (timestamp, count) rows /\
    (forall c', In (timestamp, c') rows -> c' = count).
Proof.
  unfold cacheData, getCachedData, try_catch, pool_query, ret. simpl.
  eexists. split; [reflexivity |].
  set (P := fun r : mention_row => String.eqb (m_symbol r) symbol
                                   && (now - 1 * 3600 * 1000 <=? m_timestamp r)).
  set (rows := upsert_mention symbol count timestamp (mentions d)).
  assert (Hperm : forall x, In x (sort_by_timestamp
                                   (map (fun r => (m_timestamp r, m_count r))
                                      (filter P rows)))
                            <-> In x (map (fun r => (m_timestamp r, m_count r))
                                        (filter P rows))).
  { intros x. split; apply Permutation_in;
      [| apply Permutation_sym]; apply QuarterFacts.sort_by_timestamp_perm. }
  split.
  - apply Hperm, in_map_iff. exists (MentionRow symbol count timestamp).
    split; [reflexivity |]. apply filter_In. split; [apply upsert_mention_in |].
    unfold P. simpl. rewrite String.eqb_refl. simpl. apply Z.leb_le. lia.
  - intros c' Hin. apply Hperm, in_map_iff in Hin as (r & Hr & Hin).
    apply filter_In in Hin as [Hin HP]. injection Hr as Hts Hc.
    unfold P in HP. apply andb_true_iff in HP as [Hsym _].
    assert (Hkey : same_key symbol timestamp r = true).
    { unfold same_key. rewrite Hsym, Hts, Z.eqb_refl. reflexivity. }
    rewrite (upsert_mention_key_rows _ _ _ _ _ Hin Hkey) in Hc. simpl in Hc.
    congruence.
Qed.

Lemma cacheData_then_getCachedData_witness :
  exists rows,
    fst (getCachedData "$BTC" 1 1704067200000
           (snd (cacheData "$BTC" 9 1704063600000
                   (World (Db [MentionRow "$BTC" 4 1704063600000;
                               MentionRow "$ETH" 1 1704063600000] None)
                      (false :: false :: []) 0)))) = inr rows /\
    In (1704063600000, 9) rows /\
    (forall c', In (1704063600000, c') rows -> c' = 9).
Proof.
  apply (cacheData_then_getCachedData "$BTC" 9 1704063600000 1704067200000
           (Db [MentionRow "$BTC" 4 1704063600000;
                MentionRow "$ETH" 1 1704063600000] None) [] 0).
  lia.
Defined.

End CacheRoundTrip.

(** ** What the 7-day series counts *)

Module HourlyCounts.
Import Hourly HourlyFacts.

Lemma get_or_0_set (m : list (Z * Z)) (k v x : Z) :
  get_or_0 (map_set m k v) x = if k =? x then v else get_or_0 m x.
Proof. unfold get_or_0. rewrite map_get_set. destruct (k =? x); reflexivity. Qed.

(** The count of key [k] grows by the number of tweets of hour [k]. *)
Lemma count_tweets_get (tweets : list Z) : forall m k,
  get_or_0 (count_tweets m tweets) k
  = get_or_0 m k + Z.of_nat (List.length (filter (fun t => floor_hour t =? k) tweets)).
Proof.
  induction tweets as [|t tweets IH]; intros m k; unfold count_tweets in *;
    simpl; [lia |].
  rewrite IH, get_or_0_set.
  destruct (floor_hour t =? k) eqn:E; cbn [List.length]; [| reflexivity].
  apply Z.eqb_eq in E. subst k. lia.
Qed.

Lemma hour_loop_lower (fuel : nat) : forall time endTime x,
  In x (hour_loop fuel time endTime) -> time <= x.
Proof.
  pose proof HOUR_pos.
  induction fuel as [|fuel IH]; intros time endTime x Hin; simpl in Hin; [contradiction |].
  destruct (time <=? endTime); [| contradiction].
  destruct Hin as [<- | Hin]; [lia |]. apply IH in Hin. lia.
Qed.

Lemma hour_loop_nodup (fuel : nat) : forall time endTime,
  NoDup (hour_loop fuel time endTime).
Proof.
  pose proof HOUR_pos.
  induction fuel as [|fuel IH]; intros time endTime; simpl; [constructor |].
  destruct (time <=? endTime); [| constructor].
  constructor; [| apply IH].
  intros Hin. apply hour_loop_lower in Hin. lia.
Qed.

Lemma sum_indicator (x : Z) (grid : list Z) :
  NoDup grid ->
  fold_right Z.add 0 (map (fun g => if x =? g then 1 else 0) grid)
  = if existsb (Z.eqb x) grid then 1 else 0.
Proof.
  induction grid as [|g grid IH]; intros Hnd; simpl; [reflexivity |].
  inversion Hnd as [|? ? Hnotin Hnd']; subst.
  destruct (x =? g) eqn:E; simpl; [| apply IH, Hnd'].
  apply Z.eqb_eq in E. subst g.
  rewrite IH by exact Hnd'.
  destruct (existsb (Z.eqb x) grid) eqn:Hex; [| reflexivity].
  apply existsb_exists in Hex as (y & Hy & Hxy). apply Z.eqb_eq in Hxy. subst y.
  contradiction.
Qed.

Lemma sum_map_add (f h : Z -> Z) (l : list Z) :
  fold_right Z.add 0 (map (fun g => f g + h g) l)
  = fold_right Z.add 0 (map f l) + fold_right Z.add 0 (map h l).
Proof. induction l as [|g l IH]; simpl; lia. Qed.

Lemma sum_per_hour (grid : list Z) (tweets : list Z) :
  NoDup grid ->
  fold_right Z.add 0
    (map (fun g => Z.of_nat (List.length (filter (fun t => floor_hour t =? g) tweets)))
       grid)
  = Z.of_nat (List.length
      (filter (fun t => existsb (Z.eqb (floor_hour t)) grid) tweets)).
Proof.
  intros Hnd. induction tweets as [|t tweets IH]; simpl.
  - induction grid as [|g grid IHg]; simpl; [reflexivity |].
    inversion Hnd; subst. rewrite IHg; auto.
  - rewrite (map_ext _ (fun g => (if floor_hour t =? g then 1 else 0) +
                 Z.of_nat (List.length (filter (fun t => floor_hour t =? g) tweets)))).
    + rewrite sum_map_add, sum_indicator, IH by exact Hnd.
      destruct (existsb (Z.eqb (floor_hour t)) grid); cbn [List.length]; lia.
    + intros g. destruct (floor_hour t =? g); cbn [List.length]; lia.
Qed.

(** For every window, the 7-day series counts exactly the tweets whose
    hour (minutes, seconds and milliseconds cleared) is an instant of the
    grid; every other tweet is dropped without notice. *)
Theorem aggregate_hourly_counts (startTime endTime : Z) (tweets : list Z) :
  fold_right Z.add 0 (map snd (aggregate_hourly startTime endTime tweets))
  = Z.of_nat (List.length
      (filter (fun t => existsb (Z.eqb (floor_hour t))
                          (hourlyTimestamps startTime endTime)) tweets)).
Proof.
  unfold aggregate_hourly. rewrite map_map. cbn [snd].
  rewrite (map_ext _ (fun g => Z.of_nat (List.length
                         (filter (fun t => floor_hour t =? g) tweets)))).
  - apply sum_per_hour. apply hour_loop_nodup.
  - intros g. rewrite count_tweets_get, seed_get. lia.
Qed.

End HourlyCounts.

(** ** The cache query and the 1-hour grid *)

Section CacheQuery.

Lemma cached_rows_in (symbol : string) (hours now : Z) (d : db) (p : Z * Z) :
  In p (sort_by_timestamp
          (map (fun r => (m_timestamp r, m_count r))
             (filter (fun r => String.eqb (m_symbol r) symbol
                               && (now - hours * 3600 * 1000 <=? m_timestamp r))
                (mentions d))))
  <-> exists r, In r (mentions d) /\ m_symbol r = symbol /\
                now - hours * 3600 * 1000 <= m_timestamp r /\
                p = (m_timestamp r, m_count r).
Proof.
  split.
  - intros Hin.
    apply (Permutation_in _ (QuarterFacts.sort_by_timestamp_perm _)) in Hin.
    apply in_map_iff in Hin as (r & <- & Hin).
    apply filter_In in Hin as [Hin Hp]. apply andb_true_iff in Hp as [Hs Ht].
    exists r. repeat split; auto.
    + apply String.eqb_eq, Hs.
    + apply Z.leb_le, Ht.
  - intros (r & Hin & Hs & Ht & ->).
    apply (Permutation_in _ (Permutation_sym (QuarterFacts.sort_by_timestamp_perm _))).
    apply in_map_iff. exists r. split; [reflexivity |].
    apply filter_In. split; [exact Hin |].
    rewrite Hs, String.eqb_refl. apply Z.leb_le, Ht.
Qed.

(** [getCachedData(symbol, hours)] answers in every case; when its query
    runs it returns exactly the [(timestamp, count)] pairs of the rows of
    [symbol] at most [hours] hours old, in ascending timestamp order, and
    when its query fails it returns no row; it writes nothing and never
    calls the upstream. *)
Theorem getCachedData_rows (symbol : string) (hours now : Z) (w : world) :
  exists rows,
    fst (getCachedData symbol hours now w) = inr rows /\
    Sorted Z.le (map fst rows) /\
    w_db (snd (getCachedData symbol hours now w)) = w_db w /\
    w_twitter_calls (snd (getCachedData symbol hours now w)) = w_twitter_calls w /\
    (first_query_fails w = true -> rows = []) /\
    (first_query_fails w = false ->
     forall p, In p rows <->
       exists r, In r (mentions (w_db w)) /\ m_symbol r = symbol /\
                 now - hours * 3600 * 1000 <= m_timestamp r /\
                 p = (m_timestamp r, m_count r)).
Proof.
  unfold getCachedData, try_catch, pool_query, ret, first_query_fails.
  destruct (w_faults w) as [|[|] fs]; simpl.
  2: { exists []. repeat split; try constructor; discriminate. }
  all: eexists; split; [reflexivity |].
  all: split; [apply QuarterFacts.sorted_keys, QuarterFacts.sort_by_timestamp_sorted |].
  all: repeat split; try reflexivity; try discriminate.
  all: first [apply (proj1 (cached_rows_in _ _ _ _ _))
             | apply (proj2 (cached_rows_in _ _ _ _ _))].
Qed.

End CacheQuery.

Module QuarterGrid.
Import Quarter.

(** The 1-hour variant seeds the five instants now - 60, - 45, - 30, - 15
    and - 0 minutes, for every [now]; they are quarter hours (the keys its
    tweets are counted under) exactly when [now] is one. *)
Theorem quarter_grid_five_instants (now : Z) :
  quarterTimestamps (now - 60 * 60 * 1000) now
    = map (fun k => now - 60 * 60 * 1000 + k * QUARTER) [0; 1; 2; 3; 4] /\
  ((forall g, In g (quarterTimestamps (now - 60 * 60 * 1000) now) ->
              g mod QUARTER = 0) <-> now mod QUARTER = 0).
Proof.
  assert (Hgrid : quarterTimestamps (now - 60 * 60 * 1000) now
                  = map (fun k => now - 60 * 60 * 1000 + k * QUARTER) [0; 1; 2; 3; 4]).
  { unfold quarterTimestamps.
    replace (now - (now - 60 * 60 * 1000)) with 3600000 by lia.
    change (Z.to_nat (3600000 / QUARTER)) with 4%nat.
    cbn [quarter_loop map]. unfold QUARTER.
    repeat match goal with
    | |- context [?a <=? ?b] =>
        first [rewrite (proj2 (Z.leb_le a b)) by lia
              | rewrite (proj2 (Z.leb_gt a b)) by lia]
    end.
    repeat match goal with |- _ :: _ = _ :: _ => f_equal end; lia. }
  split; [exact Hgrid |]. rewrite Hgrid. split.
  - intros H. apply H, in_map_iff. exists 4.
    split; [unfold QUARTER; lia | simpl; tauto].
  - intros Hnow g Hg. apply in_map_iff in Hg as (k & <- & _).
    replace (now - 60 * 60 * 1000 + k * QUARTER) with (now + (k - 4) * QUARTER)
      by (unfold QUARTER; lia).
    rewrite Z_mod_plus_full. exact Hnow.
Qed.

End QuarterGrid.
